(** * RDS read-replica tag setter: the Lambda handler and its specification

    A shallow embedding of [setter/internal/metrics/handler.go]
    ([Handler.getClusterIdentifier], [Handler.HandleRequest],
    [loggerFromContext]) together with the parts of the Go standard library
    the handler relies on ([strings.Contains], [os.Getenv],
    [encoding/json.Unmarshal] at the two target types the handler uses).

    Go strings are byte sequences: they are modelled by [string], whose
    characters are the 256 byte values. *)

From Stdlib Require Import String Ascii NArith Lia.
From stdpp Require Import base option list gmap strings.

Open Scope string_scope.
Open Scope list_scope.
Open Scope stdpp_scope.

Set Warnings "-register-all".

(** ** Bytes *)

Definition byte_val (c : ascii) : N := N_of_ascii c.

Definition byte_in (lo hi : N) (c : ascii) : bool :=
  ((lo <=? byte_val c) && (byte_val c <=? hi))%N.

Definition byte_of (n : N) : ascii := ascii_of_N n.

(** ** [strings] *)

(** [strings.HasPrefix(s, prefix)]. *)
Fixpoint HasPrefix (s prefix : string) {struct prefix} : bool :=
  match prefix with
  | EmptyString => true
  | String p prefix' =>
      match s with
      | EmptyString => false
      | String c s' => if Ascii.eqb c p then HasPrefix s' prefix' else false
      end
  end.

(** [strings.Contains(s, substr)]: whether [substr] occurs within [s]. *)
Fixpoint Contains (s substr : string) : bool :=
  if HasPrefix s substr then true
  else match s with
       | EmptyString => false
       | String _ s' => Contains s' substr
       end.

(** ** Errors

    Go's [error] values, by the way they are built: [errors.New] and
    [fmt.Errorf] without [%w] give an [errorString]; [fmt.Errorf] with [%w]
    wraps the error it is given; [encoding/json] reports a [SyntaxError] or an
    [UnmarshalTypeError] (byte offsets and message texts are left out); the AWS
    SDK reports an [awserr.Error]. *)
Inductive error :=
| errorString (s : string)
| wrapError (format : string) (err : error)
| SyntaxError
| UnmarshalTypeError (Value Type_ Struct Field : string)
| awserrError (code message : string) (origErr : error).

(** ** [encoding/json] *)

Module json.

(** A syntactically valid JSON text. String values and object keys hold the
    unquoted bytes; a number holds its literal. *)
Inductive Value :=
| Null
| Bool (b : bool)
| Number (literal : string)
| Str (s : string)
| Array (elems : list Value)
| Object (members : list (string * Value)).

Inductive Parse (A : Type) :=
| Parsed (a : A) (rest : string)
| SyntaxErr
| OutOfFuel.
Arguments Parsed {A} a rest.
Arguments SyntaxErr {A}.
Arguments OutOfFuel {A}.

Definition maxNestingDepth : N := 10000.

(** The double quote. *)
Definition quote : ascii := "034".

Definition isSpace (c : ascii) : bool :=
  Ascii.eqb c " " || Ascii.eqb c "009" || Ascii.eqb c "013" || Ascii.eqb c "010".

Fixpoint skipSpace (s : string) : string :=
  match s with
  | String c r => if isSpace c then skipSpace r else s
  | EmptyString => s
  end.

Definition isDigit (c : ascii) : bool := byte_in 48 57 c.
Definition isDigit19 (c : ascii) : bool := byte_in 49 57 c.
Definition isHex (c : ascii) : bool :=
  byte_in 48 57 c || byte_in 97 102 c || byte_in 65 70 c.

(** *** Numbers *)

Fixpoint spanDigits (s : string) : string * string :=
  match s with
  | String c r =>
      if isDigit c then let '(ds, r') := spanDigits r in (String c ds, r')
      else (EmptyString, s)
  | EmptyString => (EmptyString, EmptyString)
  end.

Definition scanExp (lit s : string) : option (string * string) :=
  match s with
  | String e r =>
      if Ascii.eqb e "e" || Ascii.eqb e "E" then
        let '(sign, r1) :=
          match r with
          | String g r' =>
              if Ascii.eqb g "+" || Ascii.eqb g "-"
              then (String g EmptyString, r') else (EmptyString, r)
          | EmptyString => (EmptyString, r)
          end in
        match spanDigits r1 with
        | (EmptyString, _) => None
        | (ds, r2) => Some (lit +:+ String e sign +:+ ds, r2)
        end
      else Some (lit, s)
  | EmptyString => Some (lit, s)
  end.

Definition scanFrac (lit s : string) : option (string * string) :=
  match s with
  | String c r =>
      if Ascii.eqb c "." then
        match spanDigits r with
        | (EmptyString, _) => None
        | (ds, r1) => scanExp (lit +:+ String c ds) r1
        end
      else scanExp lit s
  | EmptyString => Some (lit, s)
  end.

Definition scanNumber (s : string) : option (string * string) :=
  let '(sign, s1) :=
    match s with
    | String c r => if Ascii.eqb c "-" then (String c EmptyString, r)
                    else (EmptyString, s)
    | EmptyString => (EmptyString, s)
    end in
  match s1 with
  | String c r =>
      if Ascii.eqb c "0" then scanFrac (sign +:+ String c EmptyString) r
      else if isDigit19 c then
        let '(ds, r1) := spanDigits r in scanFrac (sign +:+ String c ds) r1
      else None
  | EmptyString => None
  end.

(** *** String literals *)

Definition isSimpleEscape (c : ascii) : bool :=
  Ascii.eqb c "b" || Ascii.eqb c "f" || Ascii.eqb c "n" || Ascii.eqb c "r"
  || Ascii.eqb c "t" || Ascii.eqb c "\" || Ascii.eqb c "/" || Ascii.eqb c quote.

Definition consFst (c : ascii) (p : option (string * string))
  : option (string * string) :=
  match p with
  | Some (raw, rest) => Some (String c raw, rest)
  | None => None
  end.

(** Scans a string literal after its opening quote: the raw body up to the
    closing quote and the text after it. *)
Fixpoint scanString (s : string) : option (string * string) :=
  match s with
  | EmptyString => None
  | String c r =>
      if Ascii.eqb c quote then Some (EmptyString, r)
      else if Ascii.eqb c "\" then
        match r with
        | String e r1 =>
            if Ascii.eqb e "u" then
              match r1 with
              | String h1 (String h2 (String h3 (String h4 r2))) =>
                  if isHex h1 && isHex h2 && isHex h3 && isHex h4 then
                    consFst c (consFst e (consFst h1 (consFst h2
                      (consFst h3 (consFst h4 (scanString r2))))))
                  else None
              | _ => None
              end
            else if isSimpleEscape e then
              consFst c (consFst e (scanString r1))
            else None
        | EmptyString => None
        end
      else if (byte_val c <? 32)%N then None
      else consFst c (scanString r)
  end.

Definition hexVal (c : ascii) : N :=
  if byte_in 48 57 c then byte_val c - 48
  else if byte_in 97 102 c then byte_val c - 97 + 10
  else byte_val c - 65 + 10.

Definition hex4 (h1 h2 h3 h4 : ascii) : N :=
  (hexVal h1 * 4096 + hexVal h2 * 256 + hexVal h3 * 16 + hexVal h4)%N.

(** [utf8.EncodeRune]. *)
Definition encodeRune (r : N) : string :=
  if (r <? 128)%N then String (byte_of r) EmptyString
  else if (r <? 2048)%N then
    String (byte_of (192 + r / 64))
      (String (byte_of (128 + r mod 64)) EmptyString)
  else if ((55296 <=? r) && (r <=? 57343) || (1114111 <? r))%N then
    String (byte_of 239) (String (byte_of 191) (String (byte_of 189) EmptyString))
  else if (r <? 65536)%N then
    String (byte_of (224 + r / 4096))
      (String (byte_of (128 + (r / 64) mod 64))
         (String (byte_of (128 + r mod 64)) EmptyString))
  else
    String (byte_of (240 + r / 262144))
      (String (byte_of (128 + (r / 4096) mod 64))
         (String (byte_of (128 + (r / 64) mod 64))
            (String (byte_of (128 + r mod 64)) EmptyString))).

Definition replacementChar : N := 65533.

(** [utf16.IsSurrogate] and [utf16.DecodeRune]. *)
Definition isSurrogate (r : N) : bool := ((55296 <=? r) && (r <? 57344))%N.

Definition decodeSurrogates (r1 r2 : N) : N :=
  if ((55296 <=? r1) && (r1 <? 56320) && (56320 <=? r2) && (r2 <? 57344))%N
  then ((r1 - 55296) * 1024 + (r2 - 56320) + 65536)%N
  else replacementChar.

Definition escapeByte (e : ascii) : ascii :=
  if Ascii.eqb e "b" then "008"
  else if Ascii.eqb e "f" then "012"
  else if Ascii.eqb e "n" then "010"
  else if Ascii.eqb e "r" then "013"
  else if Ascii.eqb e "t" then "009"
  else e.

(** The length of the UTF-8 sequence a first byte announces (0 when the byte
    cannot start a sequence) and the range its second byte must lie in:
    the tables [first] and [acceptRanges] of [unicode/utf8]. *)
Definition utf8Size (c : ascii) : nat :=
  if byte_in 194 223 c then 2
  else if byte_in 224 239 c then 3
  else if byte_in 240 244 c then 4
  else 0.

Definition utf8Accept (c b1 : ascii) : bool :=
  if Ascii.eqb c (byte_of 224) then byte_in 160 191 b1
  else if Ascii.eqb c (byte_of 237) then byte_in 128 159 b1
  else if Ascii.eqb c (byte_of 240) then byte_in 144 191 b1
  else if Ascii.eqb c (byte_of 244) then byte_in 128 143 b1
  else byte_in 128 191 b1.

Definition isCont (b : ascii) : bool := byte_in 128 191 b.

(** The number of bytes of the well-formed UTF-8 sequence at the head of
    [String c r], or 0 when [utf8.DecodeRune] answers [(RuneError, 1)]. *)
Definition utf8Valid (c : ascii) (r : string) : nat :=
  match utf8Size c, r with
  | 2, String b1 _ => if utf8Accept c b1 then 2 else 0
  | 3, String b1 (String b2 _) =>
      if utf8Accept c b1 && isCont b2 then 3 else 0
  | 4, String b1 (String b2 (String b3 _)) =>
      if utf8Accept c b1 && isCont b2 && isCont b3 then 4 else 0
  | _, _ => 0
  end.

(** [unquote]: the bytes a scanned string literal denotes. Escapes are
    replaced, UTF-16 surrogate pairs are combined and ill-formed UTF-8 is
    replaced byte by byte with U+FFFD. *)
Fixpoint unquote (s : string) : string :=
  match s with
  | EmptyString => EmptyString
  | String c r =>
      if Ascii.eqb c "\" then
        match r with
        | String e r1 =>
            if Ascii.eqb e "u" then
              match r1 with
              | String h1 (String h2 (String h3 (String h4 r2))) =>
                  let rr := hex4 h1 h2 h3 h4 in
                  if isSurrogate rr then
                    match r2 with
                    | String c' (String e' (String g1 (String g2 (String g3 (String g4 r3))))) =>
                        if Ascii.eqb c' "\" && Ascii.eqb e' "u"
                           && isHex g1 && isHex g2 && isHex g3 && isHex g4
                           && negb (N.eqb (decodeSurrogates rr (hex4 g1 g2 g3 g4))
                                          replacementChar)
                        then encodeRune (decodeSurrogates rr (hex4 g1 g2 g3 g4))
                             +:+ unquote r3
                        else encodeRune replacementChar +:+ unquote r2
                    | _ => encodeRune replacementChar +:+ unquote r2
                    end
                  else encodeRune rr +:+ unquote r2
              | _ => EmptyString
              end
            else String (escapeByte e) (unquote r1)
        | EmptyString => EmptyString
        end
      else if (byte_val c <? 128)%N then String c (unquote r)
      else
        match utf8Valid c r, r with
        | 2, String b1 r1 => String c (String b1 (unquote r1))
        | 3, String b1 (String b2 r2) =>
            String c (String b1 (String b2 (unquote r2)))
        | 4, String b1 (String b2 (String b3 r3)) =>
            String c (String b1 (String b2 (String b3 (unquote r3))))
        | _, _ => encodeRune replacementChar +:+ unquote r
        end
  end.

(** *** Values *)

(** The text after [prefix], when [s] starts with it. *)
Fixpoint stripPrefix (prefix s : string) : option string :=
  match prefix with
  | EmptyString => Some s
  | String p prefix' =>
      match s with
      | EmptyString => None
      | String c s' => if Ascii.eqb c p then stripPrefix prefix' s' else None
      end
  end.

Definition mapParsed {A B : Type} (f : A -> B) (p : Parse A) : Parse B :=
  match p with
  | Parsed a rest => Parsed (f a) rest
  | SyntaxErr => SyntaxErr
  | OutOfFuel => OutOfFuel
  end.

(** The scanner of [encoding/json] as a recursive-descent parser. [depth] is
    the number of arrays and objects that enclose the value; the scanner
    refuses to open more than [maxNestingDepth] of them. *)
Fixpoint parseValue (fuel : nat) (depth : N) (s : string) : Parse Value :=
  match fuel with
  | O => OutOfFuel
  | S fuel =>
      match skipSpace s with
      | EmptyString => SyntaxErr
      | String c r =>
          if Ascii.eqb c "{" then
            if (depth <? maxNestingDepth)%N then
              match skipSpace r with
              | String c' r' =>
                  if Ascii.eqb c' "}" then Parsed (Object []) r'
                  else mapParsed Object (parseMembers fuel (depth + 1) r)
              | EmptyString => SyntaxErr
              end
            else SyntaxErr
          else if Ascii.eqb c "[" then
            if (depth <? maxNestingDepth)%N then
              match skipSpace r with
              | String c' r' =>
                  if Ascii.eqb c' "]" then Parsed (Array []) r'
                  else mapParsed Array (parseElements fuel (depth + 1) r)
              | EmptyString => SyntaxErr
              end
            else SyntaxErr
          else if Ascii.eqb c quote then
            match scanString r with
            | Some (raw, r') => Parsed (Str (unquote raw)) r'
            | None => SyntaxErr
            end
          else if Ascii.eqb c "-" || isDigit c then
            match scanNumber (String c r) with
            | Some (lit, r') => Parsed (Number lit) r'
            | None => SyntaxErr
            end
          else if Ascii.eqb c "t" then
            match stripPrefix "rue" r with
            | Some r' => Parsed (Bool true) r'
            | None => SyntaxErr
            end
          else if Ascii.eqb c "f" then
            match stripPrefix "alse" r with
            | Some r' => Parsed (Bool false) r'
            | None => SyntaxErr
            end
          else if Ascii.eqb c "n" then
            match stripPrefix "ull" r with
            | Some r' => Parsed Null r'
            | None => SyntaxErr
            end
          else SyntaxErr
      end
  end
with parseElements (fuel : nat) (depth : N) (s : string) : Parse (list Value) :=
  match fuel with
  | O => OutOfFuel
  | S fuel =>
      match parseValue fuel depth s with
      | Parsed v r =>
          match skipSpace r with
          | String c r' =>
              if Ascii.eqb c "," then mapParsed (cons v) (parseElements fuel depth r')
              else if Ascii.eqb c "]" then Parsed [v] r'
              else SyntaxErr
          | EmptyString => SyntaxErr
          end
      | SyntaxErr => SyntaxErr
      | OutOfFuel => OutOfFuel
      end
  end
with parseMembers (fuel : nat) (depth : N) (s : string)
  : Parse (list (string * Value)) :=
  match fuel with
  | O => OutOfFuel
  | S fuel =>
      match skipSpace s with
      | String q r =>
          if Ascii.eqb q quote then
            match scanString r with
            | Some (raw, r1) =>
                match skipSpace r1 with
                | String c1 r2 =>
                    if Ascii.eqb c1 ":" then
                      match parseValue fuel depth r2 with
                      | Parsed v r3 =>
                          match skipSpace r3 with
                          | String c3 r4 =>
                              if Ascii.eqb c3 "," then
                                mapParsed (cons (unquote raw, v))
                                  (parseMembers fuel depth r4)
                              else if Ascii.eqb c3 "}" then
                                Parsed [(unquote raw, v)] r4
                              else SyntaxErr
                          | EmptyString => SyntaxErr
                          end
                      | SyntaxErr => SyntaxErr
                      | OutOfFuel => OutOfFuel
                      end
                    else SyntaxErr
                | EmptyString => SyntaxErr
                end
            | None => SyntaxErr
            end
          else SyntaxErr
      | EmptyString => SyntaxErr
      end
  end.

(** The fuel [checkValid] needs for a text. *)
Definition fuelFor (data : string) : nat := 2 * String.length data + 1.

(** [checkValid] followed by the decoder's walk: the value a text denotes, or
    [None] for a text [checkValid] rejects with a [SyntaxError]. *)
Definition parse (data : string) : option Value :=
  match parseValue (fuelFor data) 0 data with
  | Parsed v rest =>
      match skipSpace rest with
      | EmptyString => Some v
      | String _ _ => None
      end
  | SyntaxErr | OutOfFuel => None
  end.

(** *** Decoding *)

Definition kindName (v : Value) : string :=
  match v with
  | Null => "null"
  | Bool _ => "bool"
  | Number _ => "number"
  | Str _ => "string"
  | Array _ => "array"
  | Object _ => "object"
  end.

(** [saveError]: the decoder keeps the first error and goes on. *)
Definition saveError (saved err : option error) : option error :=
  match saved with
  | Some _ => saved
  | None => err
  end.

(** Decoding a value into a Go [string] that holds [cur]: a string literal is
    stored, [null] leaves the target as it is, anything else is a type
    error. *)
Definition decodeString (Struct Field : string) (cur : string) (v : Value)
  : string * option error :=
  match v with
  | Null => (cur, None)
  | Str s => (s, None)
  | _ => (cur, Some (UnmarshalTypeError (kindName v) "string" Struct Field))
  end.

(** One member of an object decoded into a [map[string]string]: the element
    starts from the zero value and is written back under the key, a later
    duplicate key replacing an earlier one. *)
Definition decodeMapMember (acc : gmap string string * option error)
  (kv : string * Value) : gmap string string * option error :=
  let '(elem, err) := decodeString EmptyString EmptyString EmptyString kv.2 in
  (<[kv.1 := elem]> acc.1, saveError acc.2 err).

(** [json.Unmarshal(data, &m)] for [var m map[string]string] (a nil map,
    modelled by the empty map). *)
Definition UnmarshalMap (data : string) : gmap string string * option error :=
  match parse data with
  | None => (∅, Some SyntaxError)
  | Some Null => (∅, None)
  | Some (Object members) => foldl decodeMapMember (∅, None) members
  | Some v => (∅, Some (UnmarshalTypeError (kindName v) "map[string]string"
                        EmptyString EmptyString))
  end.

Definition toUpper (c : ascii) : ascii :=
  if byte_in 97 122 c then byte_of (byte_val c - 32) else c.

(** [foldName], as far as names that fold to ASCII are concerned: ASCII
    letters are upper-cased, U+017F (long s) folds to S and U+212A (Kelvin
    sign) to K. Every other rune folds to a rune outside ASCII; its bytes are
    kept here, which leaves comparisons with the folded name of an ASCII field
    unchanged. *)
Fixpoint foldName (s : string) : string :=
  match s with
  | EmptyString => EmptyString
  | String c r =>
      if (byte_val c <? 128)%N then String (toUpper c) (foldName r)
      else
        match r with
        | String b1 r1 =>
            if Ascii.eqb c (byte_of 197) && Ascii.eqb b1 (byte_of 191)
            then String "S" (foldName r1)
            else
              match r1 with
              | String b2 r2 =>
                  if Ascii.eqb c (byte_of 226) && Ascii.eqb b1 (byte_of 132)
                     && Ascii.eqb b2 (byte_of 170)
                  then String "K" (foldName r2)
                  else String c (foldName r)
              | EmptyString => String c (foldName r)
              end
        | EmptyString => String c EmptyString
        end
  end.

(** The field lookup of the struct decoder: an exact match of the key, or
    else a match of the folded names. *)
Definition matchesField (name key : string) : bool :=
  String.eqb key name || String.eqb (foldName key) (foldName name).

(** One member of an object decoded into a struct whose only field is a
    [string] named [Field]: a key that matches the field is decoded into it,
    any other member is skipped. *)
Definition decodeFieldMember (Struct Field : string)
  (acc : string * option error) (kv : string * Value) : string * option error :=
  if matchesField Field kv.1 then
    let '(s, err) := decodeString Struct Field acc.1 kv.2 in
    (s, saveError acc.2 err)
  else acc.

(** [json.Unmarshal(data, &x)] for a zero-valued struct [x] of type [Type_]
    with the single string field [Field]: the field's value afterwards and the
    error returned. *)
Definition UnmarshalStruct (Type_ Struct Field : string) (data : string)
  : string * option error :=
  match parse data with
  | None => (EmptyString, Some SyntaxError)
  | Some Null => (EmptyString, None)
  | Some (Object members) =>
      foldl (decodeFieldMember Struct Field) (EmptyString, None) members
  | Some v => (EmptyString, Some (UnmarshalTypeError (kindName v) Type_
                                    EmptyString EmptyString))
  end.

End json.

(** ** AWS SDK types

    A Go pointer field ([*string], [*rds.DBInstance]) is an [option]: [None]
    is the nil pointer. *)

Module aws.

(** [aws.String] and [aws.StringValue]. *)
Definition String (v : string) : option string := Some v.

Definition StringValue (v : option string) : string :=
  match v with
  | Some s => s
  | None => EmptyString
  end.

End aws.

Module rds.

Record DBInstance := {
  DBClusterIdentifier : option string;
  DBInstanceArn : option string
}.

Record DescribeDBInstancesInput := {
  DBInstanceIdentifier : option string
}.

Record DescribeDBInstancesOutput := {
  DBInstances : list (option DBInstance)
}.

Record Tag := {
  Key : option string;
  Value : option string
}.

Record AddTagsToResourceInput := {
  ResourceName : option string;
  Tags : list Tag
}.

Record AddTagsToResourceOutput := {}.

End rds.

Module sts.

Record GetCallerIdentityInput := {}.

Record GetCallerIdentityOutput := {
  Account : option string
}.

End sts.

Module lambdacontext.

Record LambdaContext := {
  AwsRequestID : string;
  InvokedFunctionArn : string
}.

(** The package variables [lambdacontext.FunctionName] and
    [lambdacontext.FunctionVersion]. The package assigns them once, when the
    process starts; an invocation only reads them. *)
Record Globals := {
  FunctionName : string;
  FunctionVersion : string
}.

End lambdacontext.

Module events.

(** Of a CloudWatch event the handler reads the raw [Detail] only. *)
Record CloudWatchEvent := {
  Detail : string
}.

End events.

Module version.

Definition Version : string := "dev".
Definition GitCommit : string := "none".
Definition BuildTime : string := "unknown".

End version.

(** ** The handler's world *)

(** [logrus.Fields], with string values. *)
Definition Fields : Type := list (string * string).

Inductive Arg :=
| argString (s : string)
| argError (e : error).

(** One [Printf] on the handler's logger. *)
Record LogRecord := {
  log_fields : Fields;
  log_format : string;
  log_args : list Arg
}.

(** One call of an external capability, with what the capability answered. *)
Inductive Call :=
| DescribeDBInstancesCall (input : rds.DescribeDBInstancesInput)
    (output : option rds.DescribeDBInstancesOutput) (err : option error)
| GetCallerIdentityCall (input : sts.GetCallerIdentityInput)
    (output : option sts.GetCallerIdentityOutput) (err : option error)
| AddTagsToResourceCall (input : rds.AddTagsToResourceInput)
    (output : option rds.AddTagsToResourceOutput) (err : option error).

(** [RDSAPI] and [STSAPI]: the operations the handler uses, over the state
    [W] of the services behind them. *)
Record RDSAPI (W : Type) := {
  DescribeDBInstances : rds.DescribeDBInstancesInput -> W ->
    (option rds.DescribeDBInstancesOutput * option error) * W;
  AddTagsToResource : rds.AddTagsToResourceInput -> W ->
    (option rds.AddTagsToResourceOutput * option error) * W
}.
Arguments DescribeDBInstances {W}.
Arguments AddTagsToResource {W}.

Record STSAPI (W : Type) := {
  GetCallerIdentity : sts.GetCallerIdentityInput -> W ->
    (option sts.GetCallerIdentityOutput * option error) * W
}.
Arguments GetCallerIdentity {W}.

(** [Handler]: the two clients, fields [rds] and [sts] of the Go struct. The
    [logger] field, which [HandleRequest] assigns, lives in the [State]. *)
Record Handler (W : Type) := {
  h_rds : RDSAPI W;
  h_sts : STSAPI W
}.
Arguments h_rds {W}.
Arguments h_sts {W}.

Record State (W : Type) := {
  world : W;
  environ : gmap string string;
  globals : lambdacontext.Globals;
  logger : Fields;
  calls : list Call;
  logs : list LogRecord
}.
Arguments world {W}.
Arguments environ {W}.
Arguments globals {W}.
Arguments logger {W}.
Arguments calls {W}.
Arguments logs {W}.

(** A Go function either returns or panics. *)
Inductive Outcome (A : Type) :=
| Done (a : A)
| Panic.
Arguments Done {A} a.
Arguments Panic {A}.

Definition M (W A : Type) : Type := State W -> Outcome A * State W.

#[export] Instance M_ret {W} : MRet (M W) := fun A a st => (Done a, st).

#[export] Instance M_bind {W} : MBind (M W) := fun A B f m st =>
  match m st with
  | (Done a, st') => f a st'
  | (Panic, st') => (Panic, st')
  end.

Definition lookupEnv (env : gmap string string) (key : string) : string :=
  default EmptyString (env !! key).

(** The package variables of [lambdacontext] in a process started in the
    environment [env]: the package initialises them from the variables the
    Lambda runtime sets, empty outside Lambda. *)
Definition processGlobals (env : gmap string string) : lambdacontext.Globals :=
  {| lambdacontext.FunctionName := lookupEnv env "AWS_LAMBDA_FUNCTION_NAME";
     lambdacontext.FunctionVersion := lookupEnv env "AWS_LAMBDA_FUNCTION_VERSION" |}.

Section Effects.
Context {W : Type}.

Definition panic {A} : M W A := fun st => (Panic, st).

(** Dereferencing a pointer: nil panics. *)
Definition deref {A} (p : option A) : M W A :=
  match p with
  | Some a => mret a
  | None => panic
  end.

(** [os.Getenv]: the value of the variable, empty when it is not set. *)
Definition Getenv (key : string) : M W string := fun st =>
  (Done (lookupEnv (environ st) key), st).

(** Reading a package variable of [lambdacontext]. *)
Definition readGlobal {A} (var : lambdacontext.Globals -> A) : M W A := fun st =>
  (Done (var (globals st)), st).

Definition setLogger (l : Fields) : M W unit := fun st =>
  (Done tt, {| world := world st; environ := environ st;
               globals := globals st; logger := l;
               calls := calls st; logs := logs st |}).

Definition Printf (format : string) (args : list Arg) : M W unit := fun st =>
  (Done tt, {| world := world st; environ := environ st;
               globals := globals st; logger := logger st;
               calls := calls st;
               logs := logs st ++ [{| log_fields := logger st;
                                      log_format := format;
                                      log_args := args |}] |}).

(** Running a capability on the world and recording the call. *)
Definition invoke {I O : Type} (op : I -> W -> (option O * option error) * W)
  (record : I -> option O -> option error -> Call) (input : I)
  : M W (option O * option error) := fun st =>
  let '((output, err), w) := op input (world st) in
  (Done (output, err),
   {| world := w; environ := environ st; globals := globals st;
      logger := logger st;
      calls := calls st ++ [record input output err]; logs := logs st |}).

End Effects.

(** ** The handler *)

Section HandlerCode.
Context {W : Type}.

(** The order in which a [range] over a Go map visits its entries. Go leaves
    it unspecified; it is a permutation of the entries. *)
Variable mapRange : gmap string string -> list (string * string).

(** [EventDetail]: the CloudWatch event detail with the RDS instance
    identifier. *)
Record EventDetail := {
  SourceIdentifier : string
}.

(** [json.Unmarshal(data, &detail)] for a zero-valued [EventDetail]. *)
Definition UnmarshalEventDetail (data : string) : EventDetail * option error :=
  let '(s, err) :=
    json.UnmarshalStruct "metrics.EventDetail" "EventDetail" "SourceIdentifier" data in
  ({| SourceIdentifier := s |}, err).

(** [loggerFromContext]: the fields of the logger built from the Lambda
    context. [lambdacontext.FunctionName] and [lambdacontext.FunctionVersion]
    are package variables: the invocation reads the values they got when the
    process started, not the environment. *)
Definition loggerFromContext (ctx : option lambdacontext.LambdaContext)
  : M W Fields :=
  match ctx with
  | None =>
      mret [("aws_request_id", "👽️");
            ("version", version.Version);
            ("commit", version.GitCommit);
            ("built_at", version.BuildTime)]
  | Some lambdaCtx =>
      FunctionName ← readGlobal lambdacontext.FunctionName;
      FunctionVersion ← readGlobal lambdacontext.FunctionVersion;
      mret [("aws_request_id", lambdacontext.AwsRequestID lambdaCtx);
            ("function_name", FunctionName);
            ("function_version", FunctionVersion);
            ("version", version.Version);
            ("commit", version.GitCommit);
            ("built_at", version.BuildTime)]
  end.

(** [getClusterIdentifier] retrieves the cluster ID for a given RDS
    instance. *)
Definition getClusterIdentifier (h : Handler W) (DBInstanceIdentifier : string)
  : M W (string * option error) :=
  let input :=
    {| rds.DBInstanceIdentifier := aws.String DBInstanceIdentifier |} in
  '(output, err) ← invoke (DescribeDBInstances (h_rds h)) DescribeDBInstancesCall input;
  match err with
  | Some err =>
      mret (EmptyString, Some (wrapError "failed to describe DB instance: %w" err))
  | None =>
      output ← deref output;
      match rds.DBInstances output with
      | [] =>
          mret (EmptyString,
                Some (errorString ("no DB instance found with ID: " +:+ DBInstanceIdentifier)))
      | dbInstance :: _ =>
          dbInstance ← deref dbInstance;
          match rds.DBClusterIdentifier dbInstance, rds.DBInstanceArn dbInstance with
          | Some _, Some _ =>
              mret (aws.StringValue (rds.DBClusterIdentifier dbInstance), None)
          | _, _ =>
              mret (EmptyString,
                    Some (errorString ("instance " +:+ DBInstanceIdentifier
                            +:+ " is not part of a cluster or details are missing")))
          end
      end
  end.

(** The tag list built from the tag map, one [rds.Tag] per entry, in the
    order of the [range]. *)
Definition awsTags (tagsMap : gmap string string) : list rds.Tag :=
  (fun kv => {| rds.Key := aws.String kv.1; rds.Value := aws.String kv.2 |})
    <$> mapRange tagsMap.

(** [HandleRequest] processes CloudWatch events to update RDS instance tags.
    The result is the returned [error], [None] for nil. *)
Definition HandleRequest (h : Handler W)
  (ctx : option lambdacontext.LambdaContext) (event : events.CloudWatchEvent)
  : M W (option error) :=
  l ← loggerFromContext ctx;
  setLogger l;;
  expectedClusterID ← Getenv "RDS_CLUSTER_IDENTIFIER";
  if decide (expectedClusterID = EmptyString) then
    Printf "RDS_CLUSTER_IDENTIFIER environment variable is not set" [];;
    mret (Some (errorString "RDS_CLUSTER_IDENTIFIER environment variable is required"))
  else
  tagsEnv ← Getenv "TAGS";
  let '(tagsMap, err) := json.UnmarshalMap tagsEnv in
  match err with
  | Some err =>
      Printf "Error parsing tags from environment: %v" [argError err];;
      mret (Some err)
  | None =>
  let '(detail, err) := UnmarshalEventDetail (events.Detail event) in
  match err with
  | Some err =>
      Printf "Error unmarshalling event detail: %v" [argError err];;
      mret (Some err)
  | None =>
  let dbInstanceID := SourceIdentifier detail in
  Printf "Received event for DB instance: %s" [argString dbInstanceID];;
  if negb (Contains dbInstanceID "application-autoscaling-") then
    Printf "DB instance %s is not an Aurora instance. Skipping."
      [argString dbInstanceID];;
    mret None
  else
  '(clusterID, err) ← getClusterIdentifier h dbInstanceID;
  match err with
  | Some err =>
      Printf "Error getting cluster identifier for instance %s: %v"
        [argString dbInstanceID; argError err];;
      mret (Some err)
  | None =>
  if decide (clusterID ≠ expectedClusterID) then
    Printf "DB instance %s is not a member of cluster %s. Skipping."
      [argString dbInstanceID; argString expectedClusterID];;
    mret None
  else
  '(callerIdentityOutput, err) ←
    invoke (GetCallerIdentity (h_sts h)) GetCallerIdentityCall
      sts.Build_GetCallerIdentityInput;
  match err with
  | Some err =>
      Printf "Error getting AWS caller identity: %v" [argError err];;
      mret (Some err)
  | None =>
  let awsTags := awsTags tagsMap in
  callerIdentityOutput ← deref callerIdentityOutput;
  Account ← deref (sts.Account callerIdentityOutput);
  let arn := "arn:aws:rds:us-east-1:" +:+ Account +:+ ":db:" +:+ dbInstanceID in
  '(_, err) ←
    invoke (AddTagsToResource (h_rds h)) AddTagsToResourceCall
      {| rds.ResourceName := aws.String arn; rds.Tags := awsTags |};
  match err with
  | Some err =>
      Printf "Error adding tags to DB instance %s: %v"
        [argString dbInstanceID; argError err];;
      mret (Some err)
  | None => mret None
  end end end end end.

(** A fresh invocation, in a process started in the environment [env]: no
    call made and nothing logged yet. *)
Definition initial (w : W) (env : gmap string string) : State W :=
  {| world := w; environ := env; globals := processGlobals env;
     logger := []; calls := []; logs := [] |}.

End HandlerCode.

(** ** Test doubles, as in [handler_test.go] *)

Module mock.

(** [mockRDS] and [mockSTS]: stateless clients that answer through the
    configured function, or with a "not implemented" error. *)
Definition RDS
  (describeDBInstancesFunc : option (rds.DescribeDBInstancesInput ->
     option rds.DescribeDBInstancesOutput * option error))
  (addTagsToResourceFunc : option (rds.AddTagsToResourceInput ->
     option rds.AddTagsToResourceOutput * option error)) : RDSAPI unit :=
  {| DescribeDBInstances := fun input w =>
       match describeDBInstancesFunc with
       | Some f => (f input, w)
       | None => ((None, Some (errorString "DescribeDBInstances not implemented")), w)
       end;
     AddTagsToResource := fun input w =>
       match addTagsToResourceFunc with
       | Some f => (f input, w)
       | None => ((None, Some (errorString "AddTagsToResource not implemented")), w)
       end |}.

Definition STS
  (getCallerIdentityFunc : option (sts.GetCallerIdentityInput ->
     option sts.GetCallerIdentityOutput * option error)) : STSAPI unit :=
  {| GetCallerIdentity := fun input w =>
       match getCallerIdentityFunc with
       | Some f => (f input, w)
       | None => ((None, Some (errorString "GetCallerIdentity not implemented")), w)
       end |}.

Definition describes (cluster arn : option string)
  : rds.DescribeDBInstancesInput ->
    option rds.DescribeDBInstancesOutput * option error :=
  fun _ => (Some {| rds.DBInstances :=
                      [Some {| rds.DBClusterIdentifier := cluster;
                               rds.DBInstanceArn := arn |}] |}, None).

Definition defaultMockRDS : RDSAPI unit :=
  RDS (Some (describes (Some "planet-express")
               (Some "arn:aws:rds:us-east-1:123456789012:db:bender")))
      (Some (fun _ => (Some rds.Build_AddTagsToResourceOutput, None))).

Definition defaultMockSTS : STSAPI unit :=
  STS (Some (fun _ => (Some {| sts.Account := Some "123456789012" |}, None))).

(** JSON texts are written here with ' in place of the double quote. *)
Fixpoint js (s : string) : string :=
  match s with
  | EmptyString => EmptyString
  | String c r => String (if Ascii.eqb c "'" then json.quote else c) (js r)
  end.

Definition tagsJSON : string :=
  js "{'Owner':'professor-farnsworth','Purpose':'delivery-company'}".

Definition env : gmap string string :=
  <["RDS_CLUSTER_IDENTIFIER" := "planet-express"]> (<["TAGS" := tagsJSON]> ∅).

Definition handler : Handler unit :=
  {| h_rds := defaultMockRDS; h_sts := defaultMockSTS |}.

Definition lc : option lambdacontext.LambdaContext :=
  Some {| lambdacontext.AwsRequestID := "test-request-id";
          lambdacontext.InvokedFunctionArn := "test-function-arn" |}.

(** The handler of [TestHandler_getClusterIdentifier]: the describe call
    answers one instance of cluster [test-cluster] with the given ARN. *)
Definition resolverHandler (arn : string) : Handler unit :=
  {| h_rds := RDS (Some (describes (Some "test-cluster") (Some arn))) None;
     h_sts := STS None |}.

(** The clients of the test cases "instance from different cluster", "sts get
    caller identity error", "permission denied error", "get cluster
    identifier error" and "empty response". *)
Definition momHandler : Handler unit :=
  {| h_rds := RDS (Some (describes (Some "momcorp")
                           (Some "arn:aws:rds:us-east-1:123456789012:db:walt")))
                  None;
     h_sts := defaultMockSTS |}.

Definition hypnotoadHandler : Handler unit :=
  {| h_rds := defaultMockRDS;
     h_sts := STS (Some (fun _ =>
                (None, Some (errorString "ALL GLORY TO THE HYPNOTOAD")))) |}.

Definition zoidbergHandler : Handler unit :=
  {| h_rds := RDS (Some (describes (Some "planet-express")
                           (Some "arn:aws:rds:us-east-1:123456789012:db:zoidberg")))
                  (Some (fun _ =>
                     (None, Some (errorString "failed to add tags: permission denied"))));
     h_sts := defaultMockSTS |}.

Definition scruffyHandler : Handler unit :=
  {| h_rds := RDS (Some (fun _ =>
                     (None, Some (errorString "failed to get cluster identifier"))))
                  None;
     h_sts := defaultMockSTS |}.

Definition emptyResponseHandler : Handler unit :=
  {| h_rds := RDS (Some (fun _ => (Some {| rds.DBInstances := [] |}, None))) None;
     h_sts := STS None |}.

(** The event for an instance identifier, and environments with TAGS set to
    a given text or without RDS_CLUSTER_IDENTIFIER. *)
Definition event (id : string) : events.CloudWatchEvent :=
  {| events.Detail := js "{'SourceIdentifier': '" +:+ id +:+ js "'}" |}.

Definition envWithTags (tags : string) : gmap string string :=
  <["RDS_CLUSTER_IDENTIFIER" := "planet-express"]> (<["TAGS" := tags]> ∅).

Definition envWithoutCluster : gmap string string := <["TAGS" := tagsJSON]> ∅.

(** Runs the handler on a fresh state; the returned error and the calls
    made. *)
Definition run (h : Handler unit) (e : gmap string string) (detail : string)
  : Outcome (option error) * list Call :=
  let '(r, st) := HandleRequest map_to_list h lc {| events.Detail := detail |}
                    (initial tt e) in
  (r, calls st).

(** Clients for edge cases: a describe call that answers a second instance
    after the one of [describes], and an identity call that answers an output
    without an account. *)
Definition twoInstancesHandler : Handler unit :=
  {| h_rds := RDS (Some (fun _ =>
                     (Some {| rds.DBInstances :=
                                [Some {| rds.DBClusterIdentifier := Some "test-cluster";
                                         rds.DBInstanceArn := Some "test-arn" |};
                                 Some {| rds.DBClusterIdentifier := Some "other-cluster";
                                         rds.DBInstanceArn := None |}] |}, None)))
                  None;
     h_sts := STS None |}.

Definition anonymousHandler : Handler unit :=
  {| h_rds := defaultMockRDS;
     h_sts := STS (Some (fun _ => (Some {| sts.Account := None |}, None))) |}.

(** An event detail as RDS sends it, with members beside the identifier. *)
Definition rdsEventDetail : string :=
  js "{'EventCategories': ['creation'], 'SourceType': 'DB_INSTANCE', 'Date': '2024-11-06T12:26:40.000Z', 'Message': 'DB instance created', 'SourceIdentifier': 'application-autoscaling-fry', 'EventID': 'RDS-EVENT-0005'}".

End mock.


(** ** Vocabulary of the specification *)

(** The input [getClusterIdentifier] builds for an instance identifier. *)
Definition describeInput (id : string) : rds.DescribeDBInstancesInput :=
  {| rds.DBInstanceIdentifier := aws.String id |}.

(** The state after a capability call: the services moved to [w] and the
    call was recorded. *)
Definition withCall {W} (st : State W) (w : W) (c : Call) : State W :=
  {| world := w; environ := environ st; globals := globals st;
     logger := logger st;
     calls := calls st ++ [c]; logs := logs st |}.

(** The configuration of an invocation. *)
Definition expectedCluster {W} (st : State W) : string :=
  lookupEnv (environ st) "RDS_CLUSTER_IDENTIFIER".

Definition tagsEnv {W} (st : State W) : string :=
  lookupEnv (environ st) "TAGS".

(** The error a capability answered a call with, and the capability. *)
Definition call_err (c : Call) : option error :=
  match c with
  | DescribeDBInstancesCall _ _ err
  | GetCallerIdentityCall _ _ err
  | AddTagsToResourceCall _ _ err => err
  end.

Inductive Capability := Membership | Identity | Tagging.

#[export] Instance Capability_eq_dec : EqDecision Capability.
Proof. solve_decision. Defined.

Definition capability (c : Call) : Capability :=
  match c with
  | DescribeDBInstancesCall _ _ _ => Membership
  | GetCallerIdentityCall _ _ _ => Identity
  | AddTagsToResourceCall _ _ _ => Tagging
  end.

(** The error the handler returns for the error [e] of the capability called
    in [c]: the membership resolver wraps it, the other two are returned as
    they are. *)
Definition surfaced (c : Call) (e : error) : error :=
  match c with
  | DescribeDBInstancesCall _ _ _ =>
      wrapError "failed to describe DB instance: %w" e
  | _ => e
  end.

(** A JSON value without a member that the decoder would store in the field
    [name]. *)
Definition lacksField (name : string) (v : json.Value) : Prop :=
  match v with
  | json.Object members =>
      Forall (fun kv : string * json.Value => json.matchesField name kv.1 = false) members
  | _ => True
  end.

(** The ARN the handler builds for an account and an instance. *)
Definition resourceName (account id : string) : string :=
  "arn:aws:rds:us-east-1:" +:+ account +:+ ":db:" +:+ id.

(** The tag of a map entry. *)
Definition tagOf (kv : string * string) : rds.Tag :=
  {| rds.Key := aws.String kv.1; rds.Value := aws.String kv.2 |}.

(** Modelled from the spec: the tag store of the external tagging service,
    which is not part of this repository. The tags of a resource are
    key-value attachments: adding a tag sets the value of its key. *)
Definition addTag (state : gmap string string) (t : rds.Tag)
  : gmap string string :=
  <[aws.StringValue (rds.Key t) := aws.StringValue (rds.Value t)]> state.

(** Modelled from the spec: what an add-tags request does to the tag store of
    the external tagging service: the tags of the request are added one after
    the other. *)
Definition applyTags (state : gmap string string) (tags : list rds.Tag)
  : gmap string string :=
  foldl addTag state tags.

(** ** The constructor and further vocabulary *)

(** [NewHandler] creates a new Handler instance with the provided
    dependencies: the handler with the two clients, and the logger, which is
    the [logger] of the state the handler starts in. *)
Definition NewHandler {W} (logger : Fields) (rdsClient : RDSAPI W)
  (stsClient : STSAPI W) : Handler W * Fields :=
  ({| h_rds := rdsClient; h_sts := stsClient |}, logger).

(** The state in which a handler made by [NewHandler] serves its first
    invocation. *)
Definition start {W} (hl : Handler W * Fields) (w : W)
  (env : gmap string string) : State W :=
  {| world := w; environ := env; globals := processGlobals env;
     logger := hl.2; calls := []; logs := [] |}.

(** A describe answer that [getClusterIdentifier] reads without
    dereferencing nil: with a nil error comes an output whose first instance,
    if there is one, is not nil. *)
Definition describeAnswerOk
  (a : option rds.DescribeDBInstancesOutput * option error) : bool :=
  match a with
  | (_, Some _) => true
  | (None, None) => false
  | (Some out, None) =>
      match rds.DBInstances out with
      | None :: _ => false
      | _ => true
      end
  end.

(** An identity answer that [HandleRequest] reads without dereferencing nil:
    with a nil error comes an output that has an account. *)
Definition identityAnswerOk
  (a : option sts.GetCallerIdentityOutput * option error) : bool :=
  match a with
  | (_, Some _) => true
  | (None, None) => false
  | (Some out, None) =>
      match sts.Account out with
      | Some _ => true
      | None => false
      end
  end.

(** The request identifier [loggerFromContext] logs for a context. *)
Definition requestID (ctx : option lambdacontext.LambdaContext) : string :=
  match ctx with
  | Some lambdaCtx => lambdacontext.AwsRequestID lambdaCtx
  | None => "👽️"
  end.

(** JSON values a Go [string] accepts, the string a member of an object
    leaves in a [map[string]string], and the values that unmarshal into a
    [map[string]string] without error. *)
Definition isStringOrNull (v : json.Value) : bool :=
  match v with
  | json.Str _ | json.Null => true
  | _ => false
  end.

Definition memberString (kv : string * json.Value) : string * string :=
  (kv.1, match kv.2 with json.Str s => s | _ => EmptyString end).

Definition acceptableTags (v : json.Value) : Prop :=
  match v with
  | json.Null => True
  | json.Object members =>
      Forall (fun kv : string * json.Value => isStringOrNull kv.2 = true) members
  | _ => False
  end.

(** The string a member of an event detail stores in the field [name], if
    any, and the details that unmarshal into the struct without error. *)
Definition fieldString (name : string) (kv : string * json.Value)
  : option string :=
  if json.matchesField name kv.1 then
    match kv.2 with
    | json.Str s => Some s
    | _ => None
    end
  else None.

Definition acceptableDetail (name : string) (v : json.Value) : Prop :=
  match v with
  | json.Null => True
  | json.Object members =>
      Forall (fun kv : string * json.Value =>
                json.matchesField name kv.1 = true -> isStringOrNull kv.2 = true)
        members
  | _ => False
  end.

(** ** Facts about the JSON scanner and decoder *)

Module json_facts.
Import json.

#[local] Abbreviation len := String.length.

Lemma skipSpace_length s : len (skipSpace s) <= len s.
Proof. induction s as [|c s IH]; simpl; [lia|]. destruct (isSpace c); simpl; lia. Qed.

Lemma spanDigits_length s ds r : spanDigits s = (ds, r) -> len r <= len s.
Proof.
  revert ds r; induction s as [|c s IH]; simpl; intros ds r H.
  - injection H as <- <-. simpl; lia.
  - destruct (isDigit c).
    + destruct (spanDigits s) as [ds' r'] eqn:E. injection H as <- <-.
      specialize (IH _ _ eq_refl). lia.
    + injection H as <- <-. simpl; lia.
Qed.

Lemma scanExp_length lit s l r : scanExp lit s = Some (l, r) -> len r <= len s.
Proof.
  unfold scanExp. intros H.
  repeat case_match; simplify_eq;
    repeat match goal with
    | E : spanDigits _ = _ |- _ => apply spanDigits_length in E
    end; simpl in *; lia.
Qed.

Lemma scanFrac_length lit s l r : scanFrac lit s = Some (l, r) -> len r <= len s.
Proof.
  unfold scanFrac. intros H.
  repeat case_match; simplify_eq;
    repeat match goal with
    | E : spanDigits _ = _ |- _ => apply spanDigits_length in E
    | E : scanExp _ _ = _ |- _ => apply scanExp_length in E
    end; simpl in *; lia.
Qed.

Lemma scanNumber_length s l r : scanNumber s = Some (l, r) -> len r <= len s.
Proof.
  unfold scanNumber. intros H.
  repeat case_match; simplify_eq;
    repeat match goal with
    | E : spanDigits _ = _ |- _ => apply spanDigits_length in E
    | E : scanFrac _ _ = _ |- _ => apply scanFrac_length in E
    end; simpl in *; lia.
Qed.

Lemma consFst_Some c p raw r :
  consFst c p = Some (raw, r) -> exists raw', p = Some (raw', r).
Proof. destruct p as [[??]|]; simpl; intros; simplify_eq; eauto. Qed.

Lemma scanString_length s raw r : scanString s = Some (raw, r) -> len r < len s.
Proof.
  remember (len s) as n eqn:Hn. assert (Hle : len s <= n) by lia. clear Hn.
  revert s raw r Hle. induction n as [|n IH]; intros s raw r Hle H.
  - destruct s; simpl in *; [done|lia].
  - destruct s as [|c s]; simpl in H; [done|].
    repeat case_match; simplify_eq;
      repeat match goal with
      | E : consFst _ _ = Some _ |- _ => apply consFst_Some in E as [? E]
      end;
      try match goal with
      | E : scanString _ = Some _ |- _ => apply IH in E; simpl in *; lia
      end; simpl in *; lia.
Qed.

Lemma stripPrefix_length p s r : stripPrefix p s = Some r -> len r <= len s.
Proof.
  revert s; induction p as [|c p IH]; intros [|c' s]; simpl; intros H;
    simplify_eq; simpl; try lia.
  case_match; [|done]. apply IH in H. lia.
Qed.

Lemma parseValue_S fuel d s :
  parseValue (S fuel) d s =
  match skipSpace s with
  | EmptyString => SyntaxErr
  | String c r =>
      if Ascii.eqb c "{" then
        if (d <? maxNestingDepth)%N then
          match skipSpace r with
          | String c' r' =>
              if Ascii.eqb c' "}" then Parsed (Object []) r'
              else mapParsed Object (parseMembers fuel (d + 1) r)
          | EmptyString => SyntaxErr
          end
        else SyntaxErr
      else if Ascii.eqb c "[" then
        if (d <? maxNestingDepth)%N then
          match skipSpace r with
          | String c' r' =>
              if Ascii.eqb c' "]" then Parsed (Array []) r'
              else mapParsed Array (parseElements fuel (d + 1) r)
          | EmptyString => SyntaxErr
          end
        else SyntaxErr
      else if Ascii.eqb c quote then
        match scanString r with
        | Some (raw, r') => Parsed (Str (unquote raw)) r'
        | None => SyntaxErr
        end
      else if Ascii.eqb c "-" || isDigit c then
        match scanNumber (String c r) with
        | Some (lit, r') => Parsed (Number lit) r'
        | None => SyntaxErr
        end
      else if Ascii.eqb c "t" then
        match stripPrefix "rue" r with
        | Some r' => Parsed (Bool true) r'
        | None => SyntaxErr
        end
      else if Ascii.eqb c "f" then
        match stripPrefix "alse" r with
        | Some r' => Parsed (Bool false) r'
        | None => SyntaxErr
        end
      else if Ascii.eqb c "n" then
        match stripPrefix "ull" r with
        | Some r' => Parsed Null r'
        | None => SyntaxErr
        end
      else SyntaxErr
  end.
Proof. reflexivity. Qed.

Lemma parseElements_S fuel d s :
  parseElements (S fuel) d s =
  match parseValue fuel d s with
  | Parsed v r =>
      match skipSpace r with
      | String c r' =>
          if Ascii.eqb c "," then mapParsed (cons v) (parseElements fuel d r')
          else if Ascii.eqb c "]" then Parsed [v] r'
          else SyntaxErr
      | EmptyString => SyntaxErr
      end
  | SyntaxErr => SyntaxErr
  | OutOfFuel => OutOfFuel
  end.
Proof. reflexivity. Qed.

Lemma parseMembers_S fuel d s :
  parseMembers (S fuel) d s =
  match skipSpace s with
  | String q r =>
      if Ascii.eqb q quote then
        match scanString r with
        | Some (raw, r1) =>
            match skipSpace r1 with
            | String c1 r2 =>
                if Ascii.eqb c1 ":" then
                  match parseValue fuel d r2 with
                  | Parsed v r3 =>
                      match skipSpace r3 with
                      | String c3 r4 =>
                          if Ascii.eqb c3 "," then
                            mapParsed (cons (unquote raw, v))
                              (parseMembers fuel d r4)
                          else if Ascii.eqb c3 "}" then
                            Parsed [(unquote raw, v)] r4
                          else SyntaxErr
                      | EmptyString => SyntaxErr
                      end
                  | SyntaxErr => SyntaxErr
                  | OutOfFuel => OutOfFuel
                  end
                else SyntaxErr
            | EmptyString => SyntaxErr
            end
        | None => SyntaxErr
        end
      else SyntaxErr
  | EmptyString => SyntaxErr
  end.
Proof. reflexivity. Qed.

Lemma mapParsed_Parsed {A B} (f : A -> B) p b r :
  mapParsed f p = Parsed b r -> exists a, p = Parsed a r /\ b = f a.
Proof. destruct p; simpl; intros; simplify_eq; eauto. Qed.

Lemma mapParsed_OutOfFuel {A B} (f : A -> B) p :
  mapParsed f p = OutOfFuel -> p = OutOfFuel.
Proof. by destruct p. Qed.

Ltac len_facts :=
  repeat match goal with
  | E : mapParsed _ _ = Parsed _ _ |- _ =>
      apply mapParsed_Parsed in E as (? & E & ?)
  | E : mapParsed _ _ = OutOfFuel |- _ => apply mapParsed_OutOfFuel in E
  | E : scanString _ = Some _ |- _ => apply scanString_length in E
  | E : scanNumber _ = Some _ |- _ => apply scanNumber_length in E
  | E : stripPrefix _ _ = Some _ |- _ => apply stripPrefix_length in E
  | E : skipSpace ?s = _ |- _ =>
      let H := fresh in
      pose proof (skipSpace_length s) as H; rewrite E in H; clear E
  end.

Lemma parse_length fuel :
  (forall d s v r, parseValue fuel d s = Parsed v r -> len r <= len s) /\
  (forall d s v r, parseElements fuel d s = Parsed v r -> len r <= len s) /\
  (forall d s v r, parseMembers fuel d s = Parsed v r -> len r <= len s).
Proof.
  induction fuel as [|fuel (IHv & IHe & IHm)]; [done|].
  repeat split; intros d s v r H.
  - rewrite parseValue_S in H.
    repeat case_match; simplify_eq; len_facts;
      repeat match goal with
      | E : parseMembers _ _ _ = Parsed _ _ |- _ => apply IHm in E
      | E : parseElements _ _ _ = Parsed _ _ |- _ => apply IHe in E
      end; simpl in *; lia.
  - rewrite parseElements_S in H.
    repeat case_match; simplify_eq; len_facts;
      repeat match goal with
      | E : parseValue _ _ _ = Parsed _ _ |- _ => apply IHv in E
      | E : parseElements _ _ _ = Parsed _ _ |- _ => apply IHe in E
      end; simpl in *; lia.
  - rewrite parseMembers_S in H.
    repeat case_match; simplify_eq; len_facts;
      repeat match goal with
      | E : parseValue _ _ _ = Parsed _ _ |- _ => apply IHv in E
      | E : parseMembers _ _ _ = Parsed _ _ |- _ => apply IHm in E
      end; simpl in *; lia.
Qed.


Lemma parse_fuel fuel :
  (forall d s, 2 * len s + 1 <= fuel -> parseValue fuel d s <> OutOfFuel) /\
  (forall d s, 2 * len s + 2 <= fuel -> parseElements fuel d s <> OutOfFuel) /\
  (forall d s, 2 * len s + 1 <= fuel -> parseMembers fuel d s <> OutOfFuel).
Proof.
  induction fuel as [|fuel (IHv & IHe & IHm)]; [repeat split; intros; lia|].
  destruct (parse_length fuel) as (Lv & Le & Lm).
  repeat split; intros d s Hf H.
  - rewrite parseValue_S in H.
    repeat case_match; simplify_eq; len_facts; simpl in *.
    + eapply IHm; [|done]. lia.
    + eapply IHe; [|done]. lia.
  - rewrite parseElements_S in H.
    repeat case_match; simplify_eq; len_facts;
      repeat match goal with
      | E : parseValue _ _ _ = Parsed _ _ |- _ => apply Lv in E
      end; simpl in *.
    + eapply IHe; [|done]. lia.
    + eapply IHv; [|done]. lia.
  - rewrite parseMembers_S in H.
    repeat case_match; simplify_eq; len_facts;
      repeat match goal with
      | E : parseValue _ _ _ = Parsed _ _ |- _ => apply Lv in E
      end; simpl in *.
    + eapply IHm; [|done]. lia.
    + eapply IHv; [|done]. lia.
Qed.

Lemma parse_fuel_S fuel :
  (forall d s, parseValue fuel d s <> OutOfFuel ->
     parseValue (S fuel) d s = parseValue fuel d s) /\
  (forall d s, parseElements fuel d s <> OutOfFuel ->
     parseElements (S fuel) d s = parseElements fuel d s) /\
  (forall d s, parseMembers fuel d s <> OutOfFuel ->
     parseMembers (S fuel) d s = parseMembers fuel d s).
Proof.
  induction fuel as [|fuel (IHv & IHe & IHm)]; [done|].
  repeat split; intros d s H.
  - rewrite (parseValue_S (S fuel)). rewrite parseValue_S in H |- *.
    repeat case_match; simplify_eq; try done.
    + rewrite IHm; [done|]. intros E; by rewrite E in H.
    + rewrite IHe; [done|]. intros E; by rewrite E in H.
  - rewrite (parseElements_S (S fuel)). rewrite parseElements_S in H |- *.
    assert (parseValue fuel d s <> OutOfFuel) as Hv
      by (intros E; by rewrite E in H).
    rewrite (IHv _ _ Hv).
    repeat case_match; simplify_eq; try done.
    rewrite IHe; [done|]. intros E; by rewrite E in H.
  - rewrite (parseMembers_S (S fuel)). rewrite parseMembers_S in H |- *.
    repeat case_match; simplify_eq; try done.
    all: match goal with
         | E : parseValue (S ?f) ?d ?s = _, E' : parseValue ?f ?d ?s = _ |- _ =>
             rewrite IHv in E by (by rewrite E'); rewrite E' in E; simplify_eq
         end; try done.
    all: repeat match goal with
         | H1 : ?x = _, H2 : ?x = _ |- _ => rewrite H1 in H2; simplify_eq
         end; try done.
    rewrite IHm; [done|]. intros E; by rewrite E in H.
Qed.

Lemma parseValue_fuel_le fuel fuel' d s :
  fuel <= fuel' -> parseValue fuel d s <> OutOfFuel ->
  parseValue fuel' d s = parseValue fuel d s.
Proof.
  intros Hle H. induction Hle as [|fuel' _ IH]; [done|].
  destruct (parse_fuel_S fuel') as (Hv & _). rewrite Hv; rewrite IH; done.
Qed.


(** The fuel [parse] gives the scanner is enough for every text, and more fuel
    does not change the result. *)
Lemma parse_fuel_enough data : parseValue (fuelFor data) 0 data <> OutOfFuel.
Proof. apply parse_fuel. unfold fuelFor. lia. Qed.

Lemma parse_fuel_irrelevant data fuel :
  fuelFor data <= fuel ->
  parseValue fuel 0 data = parseValue (fuelFor data) 0 data.
Proof. intros Hle. apply parseValue_fuel_le; [done|apply parse_fuel_enough]. Qed.

(** Members that do not match the field leave the target as it is. *)
Lemma decodeFieldMember_skip Struct Field members acc :
  Forall (fun kv : string * Value => matchesField Field kv.1 = false) members ->
  foldl (decodeFieldMember Struct Field) acc members = acc.
Proof.
  intros H. revert acc. induction H as [|kv members Hkv _ IH]; intros acc; [done|].
  cbn [foldl]. unfold decodeFieldMember at 2. rewrite Hkv. apply IH.
Qed.

End json_facts.


(** ** Facts about [strings] *)

Lemma append_nil s : EmptyString +:+ s = s.
Proof. reflexivity. Qed.

Lemma append_cons c s t : String c s +:+ t = String c (s +:+ t).
Proof. reflexivity. Qed.

Lemma HasPrefix_spec s prefix :
  HasPrefix s prefix = true <-> exists post, s = prefix +:+ post.
Proof.
  revert s. induction prefix as [|p prefix IH]; intros s; simpl.
  - split; [|done]. intros _. exists s. by rewrite append_nil.
  - destruct s as [|c s].
    + split; [done|]. intros [post H]. by rewrite append_cons in H.
    + destruct (Ascii.eqb_spec c p) as [->|Hne].
      * rewrite IH. split; intros [post H]; exists post.
        -- rewrite append_cons. congruence.
        -- rewrite append_cons in H. congruence.
      * split; [done|]. intros [post H]. rewrite append_cons in H. congruence.
Qed.

(** [Contains] holds exactly of the strings in which [substr] occurs. *)
Lemma Contains_spec s substr :
  Contains s substr = true <-> exists pre post, s = pre +:+ substr +:+ post.
Proof.
  induction s as [|c s IH]; cbn [Contains].
  - destruct (HasPrefix EmptyString substr) eqn:E.
    + apply HasPrefix_spec in E as [post E]. split; [|done].
      intros _. exists EmptyString, post. by rewrite append_nil.
    + split; [done|]. intros (pre & post & H).
      destruct pre; [|by rewrite append_cons in H]. rewrite append_nil in H.
      assert (HasPrefix EmptyString substr = true) by (apply HasPrefix_spec; eauto).
      congruence.
  - destruct (HasPrefix (String c s) substr) eqn:E.
    + apply HasPrefix_spec in E as [post E]. split; [|done].
      intros _. exists EmptyString, post. by rewrite append_nil.
    + rewrite IH. split.
      * intros (pre & post & ->). exists (String c pre), post.
        by rewrite append_cons.
      * intros (pre & post & H). destruct pre as [|c' pre].
        -- rewrite append_nil in H.
           assert (HasPrefix (String c s) substr = true)
             by (apply HasPrefix_spec; eauto).
           congruence.
        -- rewrite append_cons in H. injection H as _ ->. eauto.
Qed.

(** ** Facts about the tag store *)

Lemma applyTags_notin (l : list (string * string)) state k :
  k ∉ l.*1 -> applyTags state (tagOf <$> l) !! k = state !! k.
Proof.
  revert state. induction l as [|[k' v'] l IH]; intros state Hk; [done|].
  rewrite fmap_cons in Hk. apply not_elem_of_cons in Hk as [Hne Hk].
  cbn [fmap list_fmap applyTags foldl] in *. unfold applyTags in IH.
  rewrite IH by done. unfold addTag. simpl. by rewrite lookup_insert_ne.
Qed.

Lemma applyTags_in (l : list (string * string)) state k v :
  NoDup l.*1 -> (k, v) ∈ l -> applyTags state (tagOf <$> l) !! k = Some v.
Proof.
  revert state. induction l as [|[k' v'] l IH]; intros state Hnd Hin.
  - by apply elem_of_nil in Hin.
  - rewrite fmap_cons in Hnd. apply NoDup_cons in Hnd as [Hk' Hnd].
    apply elem_of_cons in Hin as [[= <- <-]|Hin].
    + cbn [fmap list_fmap applyTags foldl].
      pose proof (applyTags_notin l (addTag state (tagOf (k, v))) k Hk') as H.
      unfold applyTags in H. rewrite H. unfold addTag. simpl.
      by rewrite lookup_insert_eq.
    + cbn [fmap list_fmap applyTags foldl]. by apply IH.
Qed.

(** Adding the tags of a map, in any order of its entries, overrides the
    state with the map. *)
Lemma applyTags_union (range : gmap string string -> list (string * string))
  (m state : gmap string string) :
  (forall m, range m ≡ₚ map_to_list m) ->
  applyTags state (awsTags range m) = m ∪ state.
Proof.
  intros Hperm. apply map_eq. intros k. unfold awsTags.
  change (fun kv : string * string => _) with tagOf.
  rewrite lookup_union. destruct (m !! k) as [v|] eqn:E.
  - rewrite (applyTags_in _ _ k v).
    + by destruct (state !! k).
    + rewrite Hperm. apply NoDup_fst_map_to_list.
    + rewrite Hperm. by apply elem_of_map_to_list.
  - rewrite applyTags_notin; [by destruct (state !! k)|].
    rewrite Hperm. intros Hin. apply list_elem_of_fmap in Hin as ([k' v] & -> & Hin).
    apply elem_of_map_to_list in Hin. simpl in E. congruence.
Qed.

(** ** Running the handler *)

(** One step of symbolic execution of a handler run. *)
Ltac exec :=
  unfold mbind, M_bind, mret, M_ret, Printf, setLogger, Getenv, readGlobal,
    deref, panic in *;
  cbn [calls world environ globals logger logs fst snd negb] in *.

(** Case analysis on a scrutinee that is not itself a case analysis. *)
Ltac split_match :=
  match goal with
  | |- context [match ?x with _ => _ end] =>
      lazymatch x with
      | context [match _ with _ => _ end] => fail
      | _ => destruct x
      end
  end.

Lemma loggerFromContext_run {W} ctx (st : State W) :
  exists l, loggerFromContext ctx st = (Done l, st).
Proof. destruct ctx; eexists; reflexivity. Qed.

(** Enters [HandleRequest] up to the check of the expected cluster. *)
Ltac enter_handler ctx st :=
  unfold expectedCluster, tagsEnv in *; unfold HandleRequest;
  let l := fresh "l" in
  let Hl := fresh "Hl" in
  destruct (loggerFromContext_run ctx st) as [l Hl];
  exec; rewrite Hl; exec.

Section HandlerFacts.
Context {W : Type}.
Implicit Types (h : Handler W) (st : State W).
Variable mapRange : gmap string string -> list (string * string).
Hypothesis mapRange_perm : forall m, mapRange m ≡ₚ map_to_list m.

Lemma invoke_run {I O} (op : I -> W -> (option O * option error) * W)
  record input st :
  invoke op record input st =
  (Done (op input (world st)).1,
   withCall st (op input (world st)).2
     (record input (op input (world st)).1.1 (op input (world st)).1.2)).
Proof. unfold invoke. by destruct (op input (world st)) as [[??]?]. Qed.

(** The resolver makes the one describe call and touches nothing else. *)
Lemma getClusterIdentifier_state h id st :
  (getClusterIdentifier h id st).2 =
  let r := DescribeDBInstances (h_rds h) (describeInput id) (world st) in
  withCall st r.2 (DescribeDBInstancesCall (describeInput id) r.1.1 r.1.2).
Proof.
  unfold getClusterIdentifier. exec. rewrite invoke_run. fold (describeInput id).
  destruct (DescribeDBInstances _ _ _) as [[out err] w]. simpl.
  repeat (split_match; exec; try done).
Qed.

(** What the resolver returns depends on the state of the services only. *)
Lemma getClusterIdentifier_result h id st s :
  world s = world st ->
  (getClusterIdentifier h id s).1 = (getClusterIdentifier h id st).1.
Proof.
  intros Hw. unfold getClusterIdentifier. exec. rewrite !invoke_run, Hw.
  destruct (DescribeDBInstances _ _ _) as [[out err] w]. simpl.
  repeat (split_match; exec; try done).
Qed.

(** The resolver succeeds exactly when the describe call answers without
    error and the first descriptor names its cluster and its ARN. *)
Lemma getClusterIdentifier_success h id st clusterID :
  (getClusterIdentifier h id st).1 = Done (clusterID, None) <->
  exists out inst rest arn,
    (DescribeDBInstances (h_rds h) (describeInput id) (world st)).1
      = (Some out, None) /\
    rds.DBInstances out = Some inst :: rest /\
    rds.DBClusterIdentifier inst = Some clusterID /\
    rds.DBInstanceArn inst = Some arn.
Proof.
  unfold getClusterIdentifier. exec. rewrite invoke_run. fold (describeInput id).
  destruct (DescribeDBInstances _ _ _) as [[out err] w]. simpl. split.
  - intros H. repeat (case_match; exec; simplify_eq; try done).
    simpl in *. simplify_eq. eauto 10.
  - intros (o & inst & rest & arn & ? & Hi & Hc & Ha). simplify_eq. exec.
    rewrite Hi. exec. by rewrite Hc, Ha.
Qed.

(** The run of the handler once the event passed the filter and the resolver
    answered the expected cluster: the caller identity is asked for. *)
Lemma HandleRequest_member h ctx event st tagsMap detail :
  expectedCluster st <> EmptyString ->
  json.UnmarshalMap (tagsEnv st) = (tagsMap, None) ->
  UnmarshalEventDetail (events.Detail event) = (detail, None) ->
  Contains (SourceIdentifier detail) "application-autoscaling-" = true ->
  (getClusterIdentifier h (SourceIdentifier detail) st).1
    = Done (expectedCluster st, None) ->
  forall out2 account w2,
  GetCallerIdentity (h_sts h) sts.Build_GetCallerIdentityInput
    (world (getClusterIdentifier h (SourceIdentifier detail) st).2)
    = ((Some out2, None), w2) ->
  sts.Account out2 = Some account ->
  let input :=
    {| rds.ResourceName := Some (resourceName account (SourceIdentifier detail));
       rds.Tags := awsTags mapRange tagsMap |} in
  let r3 := AddTagsToResource (h_rds h) input w2 in
  (HandleRequest mapRange h ctx event st).1 = Done r3.1.2 /\
  world (HandleRequest mapRange h ctx event st).2 = r3.2 /\
  exists out1,
    calls (HandleRequest mapRange h ctx event st).2 =
    calls st ++
    [DescribeDBInstancesCall (describeInput (SourceIdentifier detail)) out1 None;
     GetCallerIdentityCall sts.Build_GetCallerIdentityInput (Some out2) None;
     AddTagsToResourceCall input r3.1.1 r3.1.2].
Proof.
  intros Hc Ht Hd Hf Hr out2 account w2 Hid Hacc.
  enter_handler ctx st.
  destruct (decide _) as [|_]; [done|].
  exec. rewrite Ht, Hd. exec. rewrite Hf. exec.
  match goal with
  | |- context [getClusterIdentifier h ?id ?s] =>
      pose proof (getClusterIdentifier_result h id st s eq_refl) as Hres;
      pose proof (getClusterIdentifier_state h id s) as Hst;
      rewrite (getClusterIdentifier_state h id st) in Hid;
      destruct (getClusterIdentifier h id s) as [r s']
  end.
  cbn [fst snd world withCall] in Hres, Hst, Hid. rewrite Hr in Hres. subst r s'.
  destruct (decide _) as [|_]; [done|].
  rewrite invoke_run. cbn [withCall world]. rewrite Hid. exec.
  rewrite Hacc. exec. rewrite invoke_run. cbn [withCall world calls].
  unfold resourceName, aws.String.
  destruct (AddTagsToResource _ _ _) as [[out3 [e|]] w3]; exec; cbn [withCall].
  all: repeat split; try done.
  all: apply getClusterIdentifier_success in Hr as (out & ? & ? & ? & Hr & _).
  all: rewrite Hr; exists (Some out); unfold withCall; cbn [fst snd calls].
  all: by rewrite <- !app_assoc.
Qed.
(** ** The claims *)

(** C1. Filter correctness: with a valid configuration and an event that
    parses, an instance identifier that does not contain
    "application-autoscaling-" makes [HandleRequest] return nil without
    calling any capability (no call is recorded and the services are left as
    they were). *)
Theorem filter_correctness h ctx event st tagsMap detail :
  expectedCluster st <> EmptyString ->
  json.UnmarshalMap (tagsEnv st) = (tagsMap, None) ->
  UnmarshalEventDetail (events.Detail event) = (detail, None) ->
  Contains (SourceIdentifier detail) "application-autoscaling-" = false ->
  (HandleRequest mapRange h ctx event st).1 = Done None /\
  calls (HandleRequest mapRange h ctx event st).2 = calls st /\
  world (HandleRequest mapRange h ctx event st).2 = world st.
Proof.
  intros Hc Ht Hd Hf. enter_handler ctx st.
  destruct (decide _) as [|_]; [done|].
  exec. rewrite Ht, Hd. exec. rewrite Hf. exec. done.
Qed.

(** C2. Membership gating: when the resolver answers a cluster identifier
    other than the expected one, [HandleRequest] returns nil and the describe
    call is the only call it makes: neither the identity nor the tag
    capability is called. *)
Theorem membership_gating h ctx event st tagsMap detail clusterID :
  expectedCluster st <> EmptyString ->
  json.UnmarshalMap (tagsEnv st) = (tagsMap, None) ->
  UnmarshalEventDetail (events.Detail event) = (detail, None) ->
  Contains (SourceIdentifier detail) "application-autoscaling-" = true ->
  (getClusterIdentifier h (SourceIdentifier detail) st).1
    = Done (clusterID, None) ->
  clusterID <> expectedCluster st ->
  (HandleRequest mapRange h ctx event st).1 = Done None /\
  exists output,
    calls (HandleRequest mapRange h ctx event st).2 =
    calls st ++ [DescribeDBInstancesCall
                   (describeInput (SourceIdentifier detail)) output None].
Proof.
  intros Hc Ht Hd Hf Hr Hne. enter_handler ctx st.
  destruct (decide _) as [|_]; [done|].
  exec. rewrite Ht, Hd. exec. rewrite Hf. exec.
  match goal with
  | |- context [getClusterIdentifier h ?id ?s] =>
      pose proof (getClusterIdentifier_result h id st s eq_refl) as Hres;
      pose proof (getClusterIdentifier_state h id s) as Hst;
      destruct (getClusterIdentifier h id s) as [r s']
  end.
  cbn [fst snd world] in Hres, Hst. rewrite Hr in Hres. subst r s'.
  destruct (decide _) as [_|]; [|done].
  exec. split; [done|]. unfold withCall; cbn [calls].
  apply getClusterIdentifier_success in Hr as (out & ? & ? & ? & Hr & _).
  rewrite Hr. eauto.
Qed.

(** C3. Fail-fast ordering: when RDS_CLUSTER_IDENTIFIER is unset or empty, or
    TAGS does not unmarshal into a string-to-string map, [HandleRequest]
    returns an error and calls no capability. *)
Theorem fail_fast_ordering h ctx event st :
  environ st !! "RDS_CLUSTER_IDENTIFIER" = None \/
  environ st !! "RDS_CLUSTER_IDENTIFIER" = Some EmptyString \/
  (exists e, (json.UnmarshalMap (tagsEnv st)).2 = Some e) ->
  (exists e, (HandleRequest mapRange h ctx event st).1 = Done (Some e)) /\
  calls (HandleRequest mapRange h ctx event st).2 = calls st /\
  world (HandleRequest mapRange h ctx event st).2 = world st.
Proof.
  intros H. enter_handler ctx st.
  destruct (decide _) as [|Hne]; [by eauto|].
  unfold lookupEnv in Hne.
  destruct H as [H|[H|[e He]]]; [by rewrite H in Hne..|]. exec.
  destruct (json.UnmarshalMap _) as [m err]. simpl in He. subst err.
  exec. eauto.
Qed.

(** C4. Error propagation: for an instance that passed the name filter, an
    error the describe client answers is returned by [HandleRequest], wrapped
    by the resolver, after that one call; for a member of the expected
    cluster, an error the identity client answers is returned as it is after
    the describe and the identity call, and an error the tag client answers
    is returned as it is after the three calls. In none of these runs a call
    is repeated, and the result is not the nil of a skip. Whatever error the
    membership resolver returns, an empty or incomplete answer included, is
    the error the handler returns. And in every run, whatever the
    configuration and the event, no capability is called twice and a call
    that answered an error makes the handler return that error. *)
Theorem error_propagation h ctx event st :
  let run := HandleRequest mapRange h ctx event st in
  (forall tagsMap detail,
     expectedCluster st <> EmptyString ->
     json.UnmarshalMap (tagsEnv st) = (tagsMap, None) ->
     UnmarshalEventDetail (events.Detail event) = (detail, None) ->
     Contains (SourceIdentifier detail) "application-autoscaling-" = true ->
     let id := SourceIdentifier detail in
     let describe := DescribeDBInstances (h_rds h) (describeInput id) (world st) in
     let identity :=
       GetCallerIdentity (h_sts h) sts.Build_GetCallerIdentityInput describe.2 in
     (forall e,
        describe.1.2 = Some e ->
        run.1 = Done (Some (wrapError "failed to describe DB instance: %w" e)) /\
        calls run.2 =
        calls st ++ [DescribeDBInstancesCall (describeInput id) describe.1.1 (Some e)]) /\
     (forall clusterID e,
        (getClusterIdentifier h id st).1 = Done (clusterID, Some e) ->
        run.1 = Done (Some e)) /\
     ((getClusterIdentifier h id st).1 = Done (expectedCluster st, None) ->
      (forall e,
         identity.1.2 = Some e ->
         run.1 = Done (Some e) /\
         calls run.2 =
         calls st ++
         [DescribeDBInstancesCall (describeInput id) describe.1.1 None;
          GetCallerIdentityCall sts.Build_GetCallerIdentityInput identity.1.1 (Some e)]) /\
      (forall out2 account e,
         identity.1 = (Some out2, None) ->
         sts.Account out2 = Some account ->
         let input :=
           {| rds.ResourceName := Some (resourceName account id);
              rds.Tags := awsTags mapRange tagsMap |} in
         let tagging := AddTagsToResource (h_rds h) input identity.2 in
         tagging.1.2 = Some e ->
         run.1 = Done (Some e) /\
         calls run.2 =
         calls st ++
         [DescribeDBInstancesCall (describeInput id) describe.1.1 None;
          GetCallerIdentityCall sts.Build_GetCallerIdentityInput (Some out2) None;
          AddTagsToResourceCall input tagging.1.1 (Some e)]))) /\
  (exists new,
     calls run.2 = calls st ++ new /\
     NoDup (capability <$> new) /\
     forall c e, c ∈ new -> call_err c = Some e ->
       run.1 = Done (Some (surfaced c e))).
Proof.
  intros run. subst run. split.
  - intros tagsMap detail Hc Ht Hd Hf id describe identity.
    split; [|split].
    + intros e He. enter_handler ctx st.
      destruct (decide _) as [|_]; [done|].
      exec. rewrite Ht, Hd. exec. rewrite Hf. exec.
      unfold getClusterIdentifier. exec. rewrite invoke_run.
      fold (describeInput (SourceIdentifier detail)). fold id.
      cbn [world]. fold describe.
      destruct describe as [[out err] w]. cbn [fst snd] in *. subst err.
      exec. unfold withCall. cbn [calls]. done.
    + intros clusterID e Hr. enter_handler ctx st.
      destruct (decide _) as [|_]; [done|].
      exec. rewrite Ht, Hd. exec. rewrite Hf. exec.
      match goal with
      | |- context [getClusterIdentifier h ?id ?s] =>
          pose proof (getClusterIdentifier_result h id st s eq_refl) as Hres;
          destruct (getClusterIdentifier h id s) as [r s']
      end.
      cbn [fst] in Hres. fold id in Hres. rewrite Hr in Hres. subst r. exec. done.
    + intros Hr.
      assert (Hpre : forall s, world s = world st -> environ s = environ st ->
                getClusterIdentifier h id s =
                (Done (expectedCluster st, None),
                 withCall s describe.2
                   (DescribeDBInstancesCall (describeInput id) describe.1.1 None))).
      { intros s Hw He.
        pose proof (getClusterIdentifier_result h id st s Hw) as Hres.
        pose proof (getClusterIdentifier_state h id s) as Hst.
        destruct (getClusterIdentifier h id s) as [r s'].
        cbn [fst snd] in Hres, Hst. rewrite Hr in Hres. subst r s'.
        cbn zeta. rewrite Hw. fold describe.
        apply getClusterIdentifier_success in Hr as (out & ? & ? & ? & Hr & _).
        fold describe in Hr. by rewrite Hr. }
      split.
      * intros e He. enter_handler ctx st.
        destruct (decide _) as [|_]; [done|].
        exec. rewrite Ht, Hd. exec. rewrite Hf. exec.
        fold id. rewrite Hpre by done.
        destruct (decide _) as [|_]; [done|].
        rewrite invoke_run. cbn [withCall world]. fold identity.
        destruct identity as [[out2 err] w2]. cbn [fst snd] in *. subst err.
        exec. unfold withCall. cbn [calls]. by rewrite <- !app_assoc.
      * intros out2 account e Hid Hacc input tagging He. enter_handler ctx st.
        destruct (decide _) as [|_]; [done|].
        exec. rewrite Ht, Hd. exec. rewrite Hf. exec.
        fold id. rewrite Hpre by done.
        destruct (decide _) as [|_]; [done|].
        rewrite invoke_run. cbn [withCall world]. fold identity.
        destruct identity as [[out2' err] w2]. cbn [fst snd] in *. simplify_eq.
        exec. rewrite Hacc. exec. rewrite invoke_run. cbn [withCall world].
        unfold aws.String. fold (resourceName account id). fold input. fold tagging.
        destruct tagging as [[out3 err] w3]. cbn [fst snd] in *. subst err.
        exec. unfold withCall. cbn [calls]. by rewrite <- !app_assoc.
  - enter_handler ctx st.
    unfold getClusterIdentifier, invoke.
    repeat (exec; split_match).
    all: exec; cbn [calls].
    all: eexists; split;
      [rewrite <- ?app_assoc; symmetry; try apply app_nil_r; reflexivity|].
    all: split; [by apply (bool_decide_unpack _)|].
    all: intros c e' Hin He; cbn [app] in Hin.
    all: repeat (apply elem_of_cons in Hin as [->|Hin]);
      try (by apply elem_of_nil in Hin).
    all: simpl in He; simplify_eq; done.
Qed.

(** C5. On the full success path the tag capability is called with the
    resource name arn:aws:rds:us-east-1:<account>:db:<instance identifier>,
    the account being the one the identity capability answered and the
    instance identifier the one of the event, and with one tag per entry of
    the parsed TAGS map; the handler returns what the tag call answers. *)
Theorem tagging_request h ctx event st tagsMap detail out2 account w2 :
  expectedCluster st <> EmptyString ->
  json.UnmarshalMap (tagsEnv st) = (tagsMap, None) ->
  UnmarshalEventDetail (events.Detail event) = (detail, None) ->
  Contains (SourceIdentifier detail) "application-autoscaling-" = true ->
  (getClusterIdentifier h (SourceIdentifier detail) st).1
    = Done (expectedCluster st, None) ->
  GetCallerIdentity (h_sts h) sts.Build_GetCallerIdentityInput
    (world (getClusterIdentifier h (SourceIdentifier detail) st).2)
    = ((Some out2, None), w2) ->
  sts.Account out2 = Some account ->
  let input :=
    {| rds.ResourceName :=
         Some ("arn:aws:rds:us-east-1:" +:+ account +:+ ":db:"
               +:+ SourceIdentifier detail);
       rds.Tags := awsTags mapRange tagsMap |} in
  let r3 := AddTagsToResource (h_rds h) input w2 in
  (HandleRequest mapRange h ctx event st).1 = Done r3.1.2 /\
  (exists out1,
     calls (HandleRequest mapRange h ctx event st).2 =
     calls st ++
     [DescribeDBInstancesCall (describeInput (SourceIdentifier detail)) out1 None;
      GetCallerIdentityCall sts.Build_GetCallerIdentityInput (Some out2) None;
      AddTagsToResourceCall input r3.1.1 r3.1.2]) /\
  rds.Tags input ≡ₚ tagOf <$> map_to_list tagsMap /\
  length (rds.Tags input) = size tagsMap.
Proof.
  intros Hc Ht Hd Hf Hr Hid Hacc input r3.
  destruct (HandleRequest_member h ctx event st tagsMap detail Hc Ht Hd Hf Hr
              out2 account w2 Hid Hacc) as (Hres & _ & Hcalls).
  repeat split; [exact Hres|exact Hcalls| |].
  - cbn [rds.Tags input]. unfold awsTags.
    change (fun kv : string * string => _) with tagOf. by rewrite mapRange_perm.
  - cbn [rds.Tags input]. unfold awsTags.
    by rewrite length_fmap, mapRange_perm, length_map_to_list.
Qed.

(** C6. The membership resolver returns an error, with an empty cluster
    identifier, when the describe call answers no instance and when the first
    descriptor answered lacks the cluster identifier or the ARN. *)
Theorem resolver_errors h id st out :
  (DescribeDBInstances (h_rds h) (describeInput id) (world st)).1
    = (Some out, None) ->
  rds.DBInstances out = [] \/
  (exists inst rest, rds.DBInstances out = Some inst :: rest /\
     (rds.DBClusterIdentifier inst = None \/ rds.DBInstanceArn inst = None)) ->
  exists e, (getClusterIdentifier h id st).1 = Done (EmptyString, Some e).
Proof.
  intros Hd H. unfold getClusterIdentifier. exec. rewrite invoke_run.
  fold (describeInput id).
  destruct (DescribeDBInstances _ _ _) as [[o err] w]. simpl in *. simplify_eq.
  exec. destruct H as [->|(inst & rest & -> & H)]; [by eauto|].
  exec. destruct H as [->| ->]; [by eauto|].
  destruct (rds.DBClusterIdentifier inst); eauto.
Qed.

(** C7, amended. On success the membership resolver returns the cluster
    identifier of the first descriptor answered, and only that: the
    descriptor's ARN has to be there but is no part of the result. *)
Theorem resolver_returns_cluster h id st out inst rest clusterID arn :
  (DescribeDBInstances (h_rds h) (describeInput id) (world st)).1
    = (Some out, None) ->
  rds.DBInstances out = Some inst :: rest ->
  rds.DBClusterIdentifier inst = Some clusterID ->
  rds.DBInstanceArn inst = Some arn ->
  (getClusterIdentifier h id st).1 = Done (clusterID, None).
Proof. intros. apply getClusterIdentifier_success. eauto 10. Qed.

(** C9, amended. With a valid configuration, an event whose detail is JSON
    null or a JSON object without a member matching SourceIdentifier is
    skipped: the identifier is empty, the handler returns nil and calls no
    capability. A detail that is any other JSON value is a parsing error, and
    again no capability is called. *)
Theorem event_without_identifier h ctx event st tagsMap v :
  expectedCluster st <> EmptyString ->
  json.UnmarshalMap (tagsEnv st) = (tagsMap, None) ->
  json.parse (events.Detail event) = Some v ->
  lacksField "SourceIdentifier" v ->
  (HandleRequest mapRange h ctx event st).1 =
    Done match v with
         | json.Null | json.Object _ => None
         | _ => Some (UnmarshalTypeError (json.kindName v)
                        "metrics.EventDetail" EmptyString EmptyString)
         end /\
  calls (HandleRequest mapRange h ctx event st).2 = calls st /\
  world (HandleRequest mapRange h ctx event st).2 = world st.
Proof.
  intros Hc Ht Hp Hl. enter_handler ctx st.
  destruct (decide _) as [|_]; [done|].
  exec. rewrite Ht. unfold UnmarshalEventDetail, json.UnmarshalStruct.
  rewrite Hp. destruct v; exec; try done.
  cbn [lacksField] in Hl. rewrite (json_facts.decodeFieldMember_skip _ _ _ _ Hl).
  exec. done.
Qed.

(** C10. When TAGS is the JSON literal null or an empty JSON object, the
    configuration is accepted: TAGS unmarshals into the empty map without
    error, and on the full success path the tag capability is called with an
    empty tag list. *)
Theorem empty_tag_set h ctx event st detail out2 account w2 :
  expectedCluster st <> EmptyString ->
  json.parse (tagsEnv st) = Some json.Null \/
  json.parse (tagsEnv st) = Some (json.Object []) ->
  UnmarshalEventDetail (events.Detail event) = (detail, None) ->
  Contains (SourceIdentifier detail) "application-autoscaling-" = true ->
  (getClusterIdentifier h (SourceIdentifier detail) st).1
    = Done (expectedCluster st, None) ->
  GetCallerIdentity (h_sts h) sts.Build_GetCallerIdentityInput
    (world (getClusterIdentifier h (SourceIdentifier detail) st).2)
    = ((Some out2, None), w2) ->
  sts.Account out2 = Some account ->
  let input :=
    {| rds.ResourceName := Some (resourceName account (SourceIdentifier detail));
       rds.Tags := [] |} in
  let r3 := AddTagsToResource (h_rds h) input w2 in
  json.UnmarshalMap (tagsEnv st) = (∅, None) /\
  (HandleRequest mapRange h ctx event st).1 = Done r3.1.2 /\
  exists out1,
    calls (HandleRequest mapRange h ctx event st).2 =
    calls st ++
    [DescribeDBInstancesCall (describeInput (SourceIdentifier detail)) out1 None;
     GetCallerIdentityCall sts.Build_GetCallerIdentityInput (Some out2) None;
     AddTagsToResourceCall input r3.1.1 r3.1.2].
Proof.
  intros Hc Hp Hd Hf Hr Hid Hacc input r3.
  assert (json.UnmarshalMap (tagsEnv st) = (∅, None)) as Ht.
  { unfold json.UnmarshalMap. by destruct Hp as [-> | ->]. }
  assert (awsTags mapRange ∅ = []) as Hnil.
  { unfold awsTags. pose proof (mapRange_perm ∅) as Hperm.
    rewrite map_to_list_empty in Hperm. apply Permutation_nil_r in Hperm.
    by rewrite Hperm. }
  destruct (HandleRequest_member h ctx event st ∅ detail Hc Ht Hd Hf Hr
              out2 account w2 Hid Hacc) as (Hres & _ & Hcalls).
  rewrite Hnil in Hres, Hcalls. done.
Qed.

End HandlerFacts.

(** C8. Idempotence: adding the tags the handler sends for a tag map to a
    resource that already received them leaves the resource's tags as they
    are, whatever the order in which the two invocations range over the
    map. *)
Theorem tag_idempotence
  (range1 range2 : gmap string string -> list (string * string))
  (state tagsMap : gmap string string) :
  (forall m, range1 m ≡ₚ map_to_list m) ->
  (forall m, range2 m ≡ₚ map_to_list m) ->
  applyTags (applyTags state (awsTags range1 tagsMap)) (awsTags range2 tagsMap)
  = applyTags state (awsTags range1 tagsMap).
Proof.
  intros H1 H2. rewrite !applyTags_union by done.
  by rewrite (assoc_L (∪)), (idemp_L (∪)).
Qed.

(** ** The claims at the cases of [handler_test.go] *)

Lemma map_to_list_perm (m : gmap string string) : map_to_list m ≡ₚ map_to_list m.
Proof. reflexivity. Defined.

Lemma reverse_map_to_list_perm (m : gmap string string) :
  reverse (map_to_list m) ≡ₚ map_to_list m.
Proof. apply reverse_Permutation. Defined.

(** "non-autoscaling instance". *)
Lemma filter_correctness_witness :
  let r := HandleRequest map_to_list mock.handler mock.lc (mock.event "nibbler")
             (initial tt mock.env) in
  r.1 = Done None /\ calls r.2 = [] /\ world r.2 = tt.
Proof.
  apply (filter_correctness map_to_list mock.handler mock.lc (mock.event "nibbler")
           (initial tt mock.env) (json.UnmarshalMap mock.tagsJSON).1
           {| SourceIdentifier := "nibbler" |});
    by vm_compute.
Defined.

(** "instance from different cluster". *)
Lemma membership_gating_witness :
  let r := HandleRequest map_to_list mock.momHandler mock.lc
             (mock.event "application-autoscaling-mom") (initial tt mock.env) in
  r.1 = Done None /\
  exists output,
    calls r.2 = [DescribeDBInstancesCall
                   (describeInput "application-autoscaling-mom") output None].
Proof.
  apply (membership_gating map_to_list mock.momHandler mock.lc
           (mock.event "application-autoscaling-mom") (initial tt mock.env)
           (json.UnmarshalMap mock.tagsJSON).1
           {| SourceIdentifier := "application-autoscaling-mom" |} "momcorp");
    by vm_compute.
Defined.

(** "missing RDS_CLUSTER_IDENTIFIER environment variable". *)
Lemma fail_fast_ordering_witness :
  let r := HandleRequest map_to_list mock.handler mock.lc
             (mock.event "application-autoscaling-hermes")
             (initial tt mock.envWithoutCluster) in
  (exists e, r.1 = Done (Some e)) /\ calls r.2 = [] /\ world r.2 = tt.
Proof.
  apply (fail_fast_ordering map_to_list mock.handler mock.lc
           (mock.event "application-autoscaling-hermes")
           (initial tt mock.envWithoutCluster)).
  left. by vm_compute.
Defined.

(** "get cluster identifier error", "sts get caller identity error" and
    "permission denied error". *)
Lemma error_propagation_witness :
  let scruffy := HandleRequest map_to_list mock.scruffyHandler mock.lc
                   (mock.event "application-autoscaling-scruffy")
                   (initial tt mock.env) in
  let hypnotoad := HandleRequest map_to_list mock.hypnotoadHandler mock.lc
                     (mock.event "application-autoscaling-hypnotoad")
                     (initial tt mock.env) in
  let zoidberg := HandleRequest map_to_list mock.zoidbergHandler mock.lc
                    (mock.event "application-autoscaling-fry")
                    (initial tt mock.env) in
  (scruffy.1 = Done (Some (wrapError "failed to describe DB instance: %w"
                             (errorString "failed to get cluster identifier"))) /\
   calls scruffy.2 =
   [DescribeDBInstancesCall (describeInput "application-autoscaling-scruffy") None
      (Some (errorString "failed to get cluster identifier"))]) /\
  (hypnotoad.1 = Done (Some (errorString "ALL GLORY TO THE HYPNOTOAD")) /\
   calls hypnotoad.2 =
   [DescribeDBInstancesCall (describeInput "application-autoscaling-hypnotoad")
      (Some {| rds.DBInstances :=
                 [Some {| rds.DBClusterIdentifier := Some "planet-express";
                          rds.DBInstanceArn :=
                            Some "arn:aws:rds:us-east-1:123456789012:db:bender" |}] |})
      None;
    GetCallerIdentityCall sts.Build_GetCallerIdentityInput None
      (Some (errorString "ALL GLORY TO THE HYPNOTOAD"))]) /\
  (zoidberg.1 = Done (Some (errorString "failed to add tags: permission denied")) /\
   calls zoidberg.2 =
   [DescribeDBInstancesCall (describeInput "application-autoscaling-fry")
      (Some {| rds.DBInstances :=
                 [Some {| rds.DBClusterIdentifier := Some "planet-express";
                          rds.DBInstanceArn :=
                            Some "arn:aws:rds:us-east-1:123456789012:db:zoidberg" |}] |})
      None;
    GetCallerIdentityCall sts.Build_GetCallerIdentityInput
      (Some {| sts.Account := Some "123456789012" |}) None;
    AddTagsToResourceCall
      {| rds.ResourceName :=
           Some "arn:aws:rds:us-east-1:123456789012:db:application-autoscaling-fry";
         rds.Tags :=
           [{| rds.Key := Some "Owner"; rds.Value := Some "professor-farnsworth" |};
            {| rds.Key := Some "Purpose"; rds.Value := Some "delivery-company" |}] |}
      None (Some (errorString "failed to add tags: permission denied"))]).
Proof.
  intros scruffy hypnotoad zoidberg. split; [|split].
  - destruct (error_propagation map_to_list mock.scruffyHandler mock.lc
                (mock.event "application-autoscaling-scruffy")
                (initial tt mock.env)) as [H _].
    destruct (H (json.UnmarshalMap mock.tagsJSON).1
                {| SourceIdentifier := "application-autoscaling-scruffy" |}
                ltac:(by vm_compute) ltac:(by vm_compute) ltac:(by vm_compute)
                ltac:(by vm_compute)) as (Hdescribe & _ & _).
    exact (Hdescribe (errorString "failed to get cluster identifier") eq_refl).
  - destruct (error_propagation map_to_list mock.hypnotoadHandler mock.lc
                (mock.event "application-autoscaling-hypnotoad")
                (initial tt mock.env)) as [H _].
    destruct (H (json.UnmarshalMap mock.tagsJSON).1
                {| SourceIdentifier := "application-autoscaling-hypnotoad" |}
                ltac:(by vm_compute) ltac:(by vm_compute) ltac:(by vm_compute)
                ltac:(by vm_compute)) as (_ & _ & Hmember).
    destruct (Hmember ltac:(by vm_compute)) as [Hidentity _].
    exact (Hidentity (errorString "ALL GLORY TO THE HYPNOTOAD") eq_refl).
  - destruct (error_propagation map_to_list mock.zoidbergHandler mock.lc
                (mock.event "application-autoscaling-fry")
                (initial tt mock.env)) as [H _].
    destruct (H (json.UnmarshalMap mock.tagsJSON).1
                {| SourceIdentifier := "application-autoscaling-fry" |}
                ltac:(by vm_compute) ltac:(by vm_compute) ltac:(by vm_compute)
                ltac:(by vm_compute)) as (_ & _ & Hmember).
    destruct (Hmember ltac:(by vm_compute)) as [_ Htagging].
    exact (Htagging {| sts.Account := Some "123456789012" |} "123456789012"
             (errorString "failed to add tags: permission denied")
             eq_refl eq_refl eq_refl).
Defined.

(** "autoscaling instance with valid cluster". *)
Lemma tagging_request_witness :
  let r := HandleRequest map_to_list mock.handler mock.lc
             (mock.event "application-autoscaling-fry") (initial tt mock.env) in
  let input :=
    {| rds.ResourceName :=
         Some "arn:aws:rds:us-east-1:123456789012:db:application-autoscaling-fry";
       rds.Tags :=
         [{| rds.Key := Some "Owner"; rds.Value := Some "professor-farnsworth" |};
          {| rds.Key := Some "Purpose"; rds.Value := Some "delivery-company" |}] |} in
  r.1 = Done None /\
  (exists out1,
     calls r.2 =
     [DescribeDBInstancesCall (describeInput "application-autoscaling-fry") out1 None;
      GetCallerIdentityCall sts.Build_GetCallerIdentityInput
        (Some {| sts.Account := Some "123456789012" |}) None;
      AddTagsToResourceCall input (Some rds.Build_AddTagsToResourceOutput) None]) /\
  rds.Tags input ≡ₚ tagOf <$> map_to_list (json.UnmarshalMap mock.tagsJSON).1 /\
  length (rds.Tags input) = size (json.UnmarshalMap mock.tagsJSON).1.
Proof.
  apply (tagging_request map_to_list map_to_list_perm mock.handler mock.lc
           (mock.event "application-autoscaling-fry") (initial tt mock.env)
           (json.UnmarshalMap mock.tagsJSON).1
           {| SourceIdentifier := "application-autoscaling-fry" |}
           {| sts.Account := Some "123456789012" |} "123456789012" tt);
    by vm_compute.
Defined.

(** "empty response". *)
Lemma resolver_errors_witness :
  exists e,
    (getClusterIdentifier mock.emptyResponseHandler "empty-response"
       (initial tt ∅)).1 = Done (EmptyString, Some e).
Proof.
  apply (resolver_errors mock.emptyResponseHandler "empty-response"
           (initial tt ∅) {| rds.DBInstances := [] |}).
  - by vm_compute.
  - left. reflexivity.
Defined.

(** "valid instance ID". *)
Lemma resolver_returns_cluster_witness :
  (getClusterIdentifier (mock.resolverHandler "test-arn") "test-instance"
     (initial tt ∅)).1 = Done ("test-cluster", None).
Proof.
  apply (resolver_returns_cluster (mock.resolverHandler "test-arn")
           "test-instance" (initial tt ∅)
           {| rds.DBInstances :=
                [Some {| rds.DBClusterIdentifier := Some "test-cluster";
                         rds.DBInstanceArn := Some "test-arn" |}] |}
           {| rds.DBClusterIdentifier := Some "test-cluster";
              rds.DBInstanceArn := Some "test-arn" |} [] "test-cluster" "test-arn");
    reflexivity.
Defined.

(** C7, as stated, fails: two instances of one cluster with different ARNs
    give the same successful result, so no resource name can be read off the
    result of the resolver. *)
Lemma resolver_result_has_no_resource_name :
  ~ exists resourceNameOf : string * option error -> string,
      forall arn r,
        (getClusterIdentifier (mock.resolverHandler arn) "test-instance"
           (initial tt ∅)).1 = Done r ->
        resourceNameOf r = arn.
Proof.
  intros [f H].
  pose proof (H "test-arn" ("test-cluster", None) eq_refl) as H1.
  pose proof (H "other-arn" ("test-cluster", None) eq_refl) as H2.
  congruence.
Qed.

(** Tagging a resource twice, the second time ranging over the map in the
    opposite order. *)
Lemma tag_idempotence_witness :
  let tags := (json.UnmarshalMap mock.tagsJSON).1 in
  let state : gmap string string := {["Name" := "fry"]} in
  applyTags (applyTags state (awsTags map_to_list tags))
    (awsTags (fun m => reverse (map_to_list m)) tags)
  = applyTags state (awsTags map_to_list tags).
Proof.
  apply (tag_idempotence map_to_list (fun m => reverse (map_to_list m))
           {["Name" := "fry"]} (json.UnmarshalMap mock.tagsJSON).1
           map_to_list_perm reverse_map_to_list_perm).
Defined.

(** An event detail without the identifier. *)
Lemma event_without_identifier_witness :
  let r := HandleRequest map_to_list mock.handler mock.lc
             {| events.Detail := mock.js "{'Other': 1}" |} (initial tt mock.env) in
  r.1 = Done None /\ calls r.2 = [] /\ world r.2 = tt.
Proof.
  apply (event_without_identifier map_to_list mock.handler mock.lc
           {| events.Detail := mock.js "{'Other': 1}" |} (initial tt mock.env)
           (json.UnmarshalMap mock.tagsJSON).1
           (json.Object [("Other", json.Number "1")])).
  - by vm_compute.
  - by vm_compute.
  - by vm_compute.
  - repeat constructor.
Defined.

(** C9, as stated, fails: the detail [[]] is valid JSON without a
    SourceIdentifier field, and the handler returns a parsing error. *)
Lemma event_array_is_rejected :
  json.parse "[]" = Some (json.Array []) /\
  lacksField "SourceIdentifier" (json.Array []) /\
  mock.run mock.handler mock.env "[]" =
    (Done (Some (UnmarshalTypeError "array" "metrics.EventDetail"
                   EmptyString EmptyString)), []).
Proof. by vm_compute. Qed.

(** TAGS set to null. *)
Lemma empty_tag_set_witness :
  let r := HandleRequest map_to_list mock.handler mock.lc
             (mock.event "application-autoscaling-fry")
             (initial tt (mock.envWithTags "null")) in
  let input :=
    {| rds.ResourceName :=
         Some "arn:aws:rds:us-east-1:123456789012:db:application-autoscaling-fry";
       rds.Tags := [] |} in
  json.UnmarshalMap "null" = (∅, None) /\
  r.1 = Done None /\
  exists out1,
    calls r.2 =
    [DescribeDBInstancesCall (describeInput "application-autoscaling-fry") out1 None;
     GetCallerIdentityCall sts.Build_GetCallerIdentityInput
       (Some {| sts.Account := Some "123456789012" |}) None;
     AddTagsToResourceCall input (Some rds.Build_AddTagsToResourceOutput) None].
Proof.
  apply (empty_tag_set map_to_list map_to_list_perm mock.handler mock.lc
           (mock.event "application-autoscaling-fry")
           (initial tt (mock.envWithTags "null"))
           {| SourceIdentifier := "application-autoscaling-fry" |}
           {| sts.Account := Some "123456789012" |} "123456789012" tt);
    try (by vm_compute).
  left. by vm_compute.
Defined.

(** ** The other cases of [TestHandler_HandleRequest] *)

Example test_sts_get_caller_identity_error :
  exists out1 out2,
    mock.run mock.hypnotoadHandler mock.env
      (mock.js "{'SourceIdentifier': 'application-autoscaling-hypnotoad'}") =
    (Done (Some (errorString "ALL GLORY TO THE HYPNOTOAD")),
     [DescribeDBInstancesCall
        (describeInput "application-autoscaling-hypnotoad") out1 None;
      GetCallerIdentityCall sts.Build_GetCallerIdentityInput out2
        (Some (errorString "ALL GLORY TO THE HYPNOTOAD"))]).
Proof. do 2 eexists. vm_compute. reflexivity. Qed.

Example test_permission_denied_error :
  exists new,
    mock.run mock.zoidbergHandler mock.env
      (mock.js "{'SourceIdentifier': 'application-autoscaling-fry'}") =
    (Done (Some (errorString "failed to add tags: permission denied")), new) /\
    capability <$> new = [Membership; Identity; Tagging].
Proof. eexists. vm_compute. split; reflexivity. Qed.

Example test_get_cluster_identifier_error :
  exists new,
    mock.run mock.scruffyHandler mock.env
      (mock.js "{'SourceIdentifier': 'application-autoscaling-scruffy'}") =
    (Done (Some (wrapError "failed to describe DB instance: %w"
                   (errorString "failed to get cluster identifier"))), new) /\
    capability <$> new = [Membership].
Proof. eexists. vm_compute. split; reflexivity. Qed.

Example test_invalid_event_detail :
  mock.run mock.handler mock.env "invalid json" = (Done (Some SyntaxError), []).
Proof. vm_compute. reflexivity. Qed.

Example test_invalid_tags_JSON :
  mock.run mock.handler (mock.envWithTags "invalid json")
    (mock.js "{'SourceIdentifier': 'application-autoscaling-leela'}") =
  (Done (Some SyntaxError), []).
Proof. vm_compute. reflexivity. Qed.

Example test_missing_environment_variables :
  mock.run mock.handler ∅
    (mock.js "{'SourceIdentifier': 'application-autoscaling-zoidberg'}") =
  (Done (Some (errorString
                 "RDS_CLUSTER_IDENTIFIER environment variable is required")), []).
Proof. vm_compute. reflexivity. Qed.

(** Keys are matched to the field without regard to case, so an event that
    spells the key in lower case is not skipped. *)
Example test_folded_key :
  exists new,
    mock.run mock.handler mock.env
      (mock.js "{'sourceidentifier': 'application-autoscaling-fry'}") = (Done None, new) /\
    capability <$> new = [Membership; Identity; Tagging].
Proof. eexists. vm_compute. split; reflexivity. Qed.

(** ** Further properties of the handler *)

(** Case analysis as [split_match], through a negation. *)
Ltac split_scrutinee :=
  match goal with
  | |- context [match negb ?b with _ => _ end] => destruct b; cbn [negb]
  | _ => split_match
  end.

(** Case analysis on the answer of a capability, keeping what [Hd] and [Hi]
    say about the answers of the describe and of the identity call. *)
Ltac split_call Hd Hi :=
  match goal with
  | |- context [match DescribeDBInstances ?r ?i ?w with _ => _ end] =>
      let X := fresh in
      pose proof (Hd i w) as X; revert X; unfold describeAnswerOk;
      destruct (DescribeDBInstances r i w) as [[? ?] ?]; cbn [fst snd]
  | |- context [match GetCallerIdentity ?r ?i ?w with _ => _ end] =>
      let X := fresh in
      pose proof (Hi i w) as X; revert X; unfold identityAnswerOk;
      destruct (GetCallerIdentity r i w) as [[? ?] ?]; cbn [fst snd]
  | _ => split_scrutinee
  end.

Section MoreFacts.
Context {W : Type}.
Implicit Types (h : Handler W) (st : State W).
Variable mapRange : gmap string string -> list (string * string).
Hypothesis mapRange_perm : forall m, mapRange m ≡ₚ map_to_list m.

(** X1. With a valid configuration, an event detail that does not unmarshal
    makes [HandleRequest] return the error of [json.Unmarshal] without
    calling any capability. *)
Theorem event_parse_error h ctx event st tagsMap detail e :
  expectedCluster st <> EmptyString ->
  json.UnmarshalMap (tagsEnv st) = (tagsMap, None) ->
  UnmarshalEventDetail (events.Detail event) = (detail, Some e) ->
  (HandleRequest mapRange h ctx event st).1 = Done (Some e) /\
  calls (HandleRequest mapRange h ctx event st).2 = calls st /\
  world (HandleRequest mapRange h ctx event st).2 = world st.
Proof.
  intros Hc Ht Hd. enter_handler ctx st.
  destruct (decide _) as [|_]; [done|].
  exec. rewrite Ht, Hd. exec. done.
Qed.

(** X2. The capabilities are called in the order membership, identity,
    tagging: the calls of a run are a prefix of that sequence, so there are
    at most three. *)
Theorem calls_in_order h ctx event st :
  exists new,
    calls (HandleRequest mapRange h ctx event st).2 = calls st ++ new /\
    capability <$> new `prefix_of` [Membership; Identity; Tagging].
Proof.
  enter_handler ctx st.
  unfold getClusterIdentifier, invoke.
  repeat (exec; split_match).
  all: exec; cbn [calls].
  all: eexists; split;
    [rewrite <- ?app_assoc; symmetry; try apply app_nil_r; reflexivity|].
  all: by eexists.
Qed.


(** X4. The naming filter looks for the marker anywhere in the identifier,
    not only at its start: with a valid configuration and a parsed event, the
    run starts with the describe call for the identifier when the identifier
    contains "application-autoscaling-", and makes no call otherwise. *)
Theorem describe_iff_marker h ctx event st tagsMap detail :
  expectedCluster st <> EmptyString ->
  json.UnmarshalMap (tagsEnv st) = (tagsMap, None) ->
  UnmarshalEventDetail (events.Detail event) = (detail, None) ->
  exists new,
    calls (HandleRequest mapRange h ctx event st).2 = calls st ++ new /\
    ((exists pre post,
        SourceIdentifier detail = pre +:+ "application-autoscaling-" +:+ post) ->
     exists output err rest,
       new = DescribeDBInstancesCall
               (describeInput (SourceIdentifier detail)) output err :: rest) /\
    ((~ exists pre post,
        SourceIdentifier detail = pre +:+ "application-autoscaling-" +:+ post) ->
     new = []).
Proof.
  intros Hc Ht Hd. enter_handler ctx st.
  destruct (decide _) as [|_]; [done|].
  exec. rewrite Ht, Hd. exec.
  pose proof (Contains_spec (SourceIdentifier detail) "application-autoscaling-")
    as Hspec.
  destruct (Contains _ _); exec.
  - unfold getClusterIdentifier, invoke.
    fold (describeInput (SourceIdentifier detail)).
    repeat (exec; split_match).
    all: exec; cbn [calls].
    all: eexists; split; [rewrite <- ?app_assoc; reflexivity|].
    all: split; [intros _; cbn [app]; by do 3 eexists|].
    all: intros Hn; destruct Hn; by apply Hspec.
  - exists []. rewrite app_nil_r. split; [done|]. split; [|done].
    intros H. apply Hspec in H. done.
Qed.

(** X5. [HandleRequest] does not panic when the clients answer, with a nil
    error, a describe output whose first instance is not nil and an identity
    output that has an account. *)
Theorem well_behaved_clients_no_panic h ctx event st :
  (forall input w,
     describeAnswerOk (DescribeDBInstances (h_rds h) input w).1 = true) ->
  (forall input w,
     identityAnswerOk (GetCallerIdentity (h_sts h) input w).1 = true) ->
  (HandleRequest mapRange h ctx event st).1 <> Panic.
Proof.
  intros Hd Hi. enter_handler ctx st.
  unfold getClusterIdentifier, invoke.
  repeat (exec; split_call Hd Hi).
  all: exec; done.
Qed.

(** X6. [getClusterIdentifier] panics exactly when the describe call answers
    a nil error together with a nil output or with a list that starts with a
    nil instance. *)
Theorem resolver_panics_iff h id st :
  (getClusterIdentifier h id st).1 = Panic <->
  describeAnswerOk (DescribeDBInstances (h_rds h) (describeInput id) (world st)).1
    = false.
Proof.
  unfold getClusterIdentifier, invoke, describeAnswerOk, describeInput.
  repeat (exec; split_match).
  all: exec; done.
Qed.

(** X7. [getClusterIdentifier] reads the first instance of the answer only:
    two successful answers with the same first instance give the same
    result, whatever follows it. *)
Theorem resolver_first_descriptor_only h h' id st st' out out' :
  (DescribeDBInstances (h_rds h) (describeInput id) (world st)).1
    = (Some out, None) ->
  (DescribeDBInstances (h_rds h') (describeInput id) (world st')).1
    = (Some out', None) ->
  head (rds.DBInstances out) = head (rds.DBInstances out') ->
  (getClusterIdentifier h id st).1 = (getClusterIdentifier h' id st').1.
Proof.
  intros H1 H2 Hh.
  unfold getClusterIdentifier, invoke. fold (describeInput id). exec.
  destruct (DescribeDBInstances (h_rds h) _ _) as [[o1 e1] w1].
  destruct (DescribeDBInstances (h_rds h') _ _) as [[o2 e2] w2].
  cbn [fst] in H1, H2. simplify_eq. exec.
  destruct (rds.DBInstances out) as [|i1 l1], (rds.DBInstances out') as [|i2 l2];
    cbn [head] in Hh; simplify_eq; [done|].
  destruct i2 as [inst|]; exec; [|done].
  by destruct (rds.DBClusterIdentifier inst), (rds.DBInstanceArn inst).
Qed.

(** X8. Whenever [getClusterIdentifier] returns an error, the cluster
    identifier it returns is empty. *)
Theorem resolver_error_empty_id h id st :
  match (getClusterIdentifier h id st).1 with
  | Done (clusterID, Some _) => clusterID = EmptyString
  | _ => True
  end.
Proof.
  unfold getClusterIdentifier, invoke.
  repeat (exec; split_match).
  all: exec; done.
Qed.

(** X9. [getClusterIdentifier] makes exactly one call, the describe call for
    the identifier it is given, and touches neither the environment nor the
    logger nor the log. *)
Theorem resolver_single_call h id st :
  let answer := DescribeDBInstances (h_rds h) (describeInput id) (world st) in
  let st' := (getClusterIdentifier h id st).2 in
  calls st' = calls st ++ [DescribeDBInstancesCall (describeInput id)
                             answer.1.1 answer.1.2] /\
  world st' = answer.2 /\
  environ st' = environ st /\ logger st' = logger st /\ logs st' = logs st.
Proof. intros answer st'. subst st'. by rewrite getClusterIdentifier_state. Qed.

(** X10. Every run of [HandleRequest] logs at least one record, and every
    record it logs carries the fields of the logger the run installs, which
    are the fields [loggerFromContext] returns for the context of the
    invocation: among them the request identifier of the context (or the
    fallback when there is none) and, with a Lambda context, the function
    name and version held by the package variables of [lambdacontext].
    These fields do not depend on the environment of the invocation; the
    run leaves the environment and the package variables as they are. *)
Theorem logs_carry_context h ctx event st :
  let st' := (HandleRequest mapRange h ctx event st).2 in
  (loggerFromContext ctx st).1 = Done (logger st') /\
  (forall s : State W, globals s = globals st ->
     (loggerFromContext ctx s).1 = Done (logger st')) /\
  (exists newlogs,
     logs st' = logs st ++ newlogs /\
     newlogs <> [] /\
     Forall (fun r => ("aws_request_id", requestID ctx) ∈ log_fields r /\
                      log_fields r = logger st') newlogs) /\
  (is_Some ctx ->
   ("function_name", lambdacontext.FunctionName (globals st)) ∈ logger st' /\
   ("function_version", lambdacontext.FunctionVersion (globals st)) ∈ logger st') /\
  environ st' = environ st /\
  globals st' = globals st.
Proof.
  intros st'. subst st'. unfold HandleRequest, loggerFromContext.
  destruct ctx as [lambdaCtx|]; exec.
  all: unfold getClusterIdentifier, invoke.
  all: repeat (exec; split_match).
  all: exec; cbn [logs logger environ globals].
  all: split; [done|].
  all: split; [intros ? Hg; by rewrite ?Hg|].
  all: split;
    [eexists; split; [rewrite <- ?app_assoc; reflexivity|];
     split; [done|]; cbn [app requestID]; repeat constructor|].
  all: split; [|done].
  all: try (by intros [? ?]).
  all: intros _; split; repeat constructor.
Qed.

(** X11. Every error [HandleRequest] returns is logged: the last record of
    the run has the returned error among its arguments, or, for a missing
    RDS_CLUSTER_IDENTIFIER, is the record that says so. *)
Theorem errors_are_logged h ctx event st e :
  (HandleRequest mapRange h ctx event st).1 = Done (Some e) ->
  exists r,
    last (logs (HandleRequest mapRange h ctx event st).2) = Some r /\
    (argError e ∈ log_args r \/
     (log_format r = "RDS_CLUSTER_IDENTIFIER environment variable is not set" /\
      e = errorString "RDS_CLUSTER_IDENTIFIER environment variable is required")).
Proof.
  enter_handler ctx st.
  unfold getClusterIdentifier, invoke.
  repeat (exec; split_match).
  all: exec; cbn [logs]; intros He; simplify_eq.
  all: eexists; split; [apply last_snoc|].
  all: cbn [log_args log_format];
    first [by right | left; repeat constructor].
Qed.

(** X12. A nil result is a skip or a completed tagging: either no capability
    was called and the name skip was logged last, or the describe call alone
    was made, without error, and the cluster skip was logged last, or all
    three capabilities were called without error; in that last case nothing
    is logged after the record of the event's receipt. *)
Theorem nil_result_means_skip_or_tagged h ctx event st :
  (HandleRequest mapRange h ctx event st).1 = Done None ->
  exists new r,
    calls (HandleRequest mapRange h ctx event st).2 = calls st ++ new /\
    last (logs (HandleRequest mapRange h ctx event st).2) = Some r /\
    ((new = [] /\
      log_format r = "DB instance %s is not an Aurora instance. Skipping.") \/
     (capability <$> new = [Membership] /\
      Forall (fun c => call_err c = None) new /\
      log_format r = "DB instance %s is not a member of cluster %s. Skipping.") \/
     (capability <$> new = [Membership; Identity; Tagging] /\
      Forall (fun c => call_err c = None) new /\
      log_format r = "Received event for DB instance: %s")).
Proof.
  enter_handler ctx st.
  unfold getClusterIdentifier, invoke.
  repeat (exec; split_match).
  all: exec; cbn [logs calls]; intros He; simplify_eq.
  all: do 2 eexists; split;
    [rewrite <- ?app_assoc; symmetry; try apply app_nil_r; reflexivity|].
  all: split; [apply last_snoc|].
  all: cbn [log_format app].
  - by left.
  - right; left. repeat split; repeat constructor.
  - right; right. repeat split; repeat constructor.
Qed.

(** X13. The logger given to [NewHandler] is never used: [HandleRequest]
    replaces it before it logs, so two handlers that differ in that logger
    only run alike, down to the log and the final state. *)
Theorem constructor_logger_unused logger1 logger2 rdsClient stsClient
  (w : W) env ctx event :
  HandleRequest mapRange (NewHandler logger1 rdsClient stsClient).1 ctx event
    (start (NewHandler logger1 rdsClient stsClient) w env) =
  HandleRequest mapRange (NewHandler logger2 rdsClient stsClient).1 ctx event
    (start (NewHandler logger2 rdsClient stsClient) w env).
Proof. unfold HandleRequest, NewHandler, start. by destruct ctx. Qed.

(** X14. For a member of the expected cluster, an identity answer with a nil
    error and a nil output or no account makes [HandleRequest] panic, after
    the describe and the identity call and before any tag call. *)
Theorem unusable_identity_panics h ctx event st tagsMap detail answer w2 :
  expectedCluster st <> EmptyString ->
  json.UnmarshalMap (tagsEnv st) = (tagsMap, None) ->
  UnmarshalEventDetail (events.Detail event) = (detail, None) ->
  Contains (SourceIdentifier detail) "application-autoscaling-" = true ->
  (getClusterIdentifier h (SourceIdentifier detail) st).1
    = Done (expectedCluster st, None) ->
  GetCallerIdentity (h_sts h) sts.Build_GetCallerIdentityInput
    (world (getClusterIdentifier h (SourceIdentifier detail) st).2)
    = (answer, w2) ->
  identityAnswerOk answer = false ->
  (HandleRequest mapRange h ctx event st).1 = Panic /\
  exists out1,
    calls (HandleRequest mapRange h ctx event st).2 =
    calls st ++
    [DescribeDBInstancesCall (describeInput (SourceIdentifier detail)) out1 None;
     GetCallerIdentityCall sts.Build_GetCallerIdentityInput answer.1 None].
Proof.
  intros Hc Ht Hd Hf Hr Hid Hok.
  enter_handler ctx st.
  destruct (decide _) as [|_]; [done|].
  exec. rewrite Ht, Hd. exec. rewrite Hf. exec.
  match goal with
  | |- context [getClusterIdentifier h ?id ?s] =>
      pose proof (getClusterIdentifier_result h id st s eq_refl) as Hres;
      pose proof (getClusterIdentifier_state h id s) as Hst;
      rewrite (getClusterIdentifier_state h id st) in Hid;
      destruct (getClusterIdentifier h id s) as [r s']
  end.
  cbn [fst snd world withCall] in Hres, Hst, Hid. rewrite Hr in Hres. subst r s'.
  destruct (decide _) as [|_]; [done|].
  rewrite invoke_run. cbn [withCall world]. rewrite Hid. exec.
  apply getClusterIdentifier_success in Hr as (out & ? & ? & ? & Hr & _).
  rewrite Hr. unfold identityAnswerOk in Hok.
  destruct answer as [[out2|] [e2|]]; try done; exec.
  - destruct (sts.Account out2); [done|]. exec. split; [done|].
    exists (Some out). unfold withCall; cbn [fst snd calls]. by rewrite <- !app_assoc.
  - split; [done|].
    exists (Some out). unfold withCall; cbn [fst snd calls]. by rewrite <- !app_assoc.
Qed.

(** X15. The tag list built from the tag map has no two tags with the same
    key, and holds the tag of a key and a value exactly when the map binds
    the key to the value. *)
Theorem tag_list_of_map (tagsMap : gmap string string) :
  NoDup (rds.Key <$> awsTags mapRange tagsMap) /\
  forall k v,
    {| rds.Key := Some k; rds.Value := Some v |} ∈ awsTags mapRange tagsMap <->
    tagsMap !! k = Some v.
Proof.
  unfold awsTags. change (fun kv : string * string => _) with tagOf. split.
  - rewrite <- list_fmap_compose.
    change (rds.Key ∘ tagOf) with (Some ∘ (fst : string * string -> string)).
    rewrite list_fmap_compose. apply NoDup_fmap_2; [apply _|].
    rewrite mapRange_perm. apply NoDup_fst_map_to_list.
  - intros k v. rewrite list_elem_of_fmap. split.
    + intros ([k' v'] & Heq & Hin). unfold tagOf, aws.String in Heq.
      simplify_eq. rewrite mapRange_perm in Hin. by apply elem_of_map_to_list.
    + intros Hl. exists (k, v). split; [done|].
      rewrite mapRange_perm. by apply elem_of_map_to_list.
Qed.

End MoreFacts.

(** ** Further properties of the decoding of the configuration and the event *)

Lemma decodeMapMember_fold members acc :
  (foldl json.decodeMapMember acc members).1 =
    foldl (fun m kv => <[kv.1 := kv.2]> m) acc.1 (memberString <$> members) /\
  ((foldl json.decodeMapMember acc members).2 = None <->
   acc.2 = None /\
   Forall (fun kv : string * json.Value => isStringOrNull kv.2 = true) members).
Proof.
  revert acc. induction members as [|[k v] members IH]; intros acc.
  - cbn [foldl fmap list_fmap]. split; [done|]. split; [by intros ->|by intros [-> _]].
  - cbn [foldl fmap list_fmap].
    destruct (IH (json.decodeMapMember acc (k, v))) as [IH1 IH2].
    rewrite IH1, IH2. clear IH IH1 IH2. rewrite Forall_cons.
    unfold json.decodeMapMember, json.decodeString, memberString, json.saveError.
    destruct acc as [m [e|]], v; cbn [fst snd isStringOrNull]; split; try done.
    all: intuition congruence.
Qed.

Lemma insert_fold_last_wins (l : list (string * string)) (m : gmap string string) :
  foldl (fun m kv => <[kv.1 := kv.2]> m) m l = list_to_map (reverse l) ∪ m.
Proof.
  revert m. induction l as [|[k v] l IH]; intros m.
  - cbn. by rewrite (left_id_L ∅ (∪)).
  - cbn [foldl fst snd]. rewrite IH, reverse_cons, list_to_map_app.
    cbn [list_to_map foldr uncurry]. simpl.
    rewrite <- (assoc_L (∪)). f_equal.
    rewrite insert_union_singleton_l. f_equal.
Qed.

Lemma default_last_cons (a s : string) (l : list string) :
  default a (last (s :: l)) = default s (last l).
Proof. rewrite last_cons. by destruct (last l). Qed.

Lemma decodeFieldMember_fold Struct Field members acc :
  (foldl (json.decodeFieldMember Struct Field) acc members).1 =
    default acc.1 (last (omap (fieldString Field) members)) /\
  ((foldl (json.decodeFieldMember Struct Field) acc members).2 = None <->
   acc.2 = None /\
   Forall (fun kv : string * json.Value =>
             json.matchesField Field kv.1 = true -> isStringOrNull kv.2 = true)
     members).
Proof.
  revert acc. induction members as [|[k v] members IH]; intros acc.
  - cbn [foldl omap list_omap]. split; [done|].
    split; [by intros ->|by intros [-> _]].
  - cbn [foldl omap list_omap].
    destruct (IH (json.decodeFieldMember Struct Field acc (k, v))) as [IH1 IH2].
    rewrite IH1, IH2. clear IH IH1 IH2. rewrite Forall_cons.
    unfold json.decodeFieldMember, fieldString, json.decodeString, json.saveError.
    cbn [fst snd].
    destruct (json.matchesField Field k), acc as [cur [e|]], v;
      cbn [fst snd isStringOrNull]; rewrite ?default_last_cons; split; try done.
    all: intuition congruence.
Qed.

(** X16. TAGS is accepted exactly when it is a JSON text for null or for an
    object whose members are all strings or null: these, and no other texts,
    unmarshal into the tag map without error. *)
Theorem tags_accepted_iff data :
  (json.UnmarshalMap data).2 = None <->
  exists v, json.parse data = Some v /\ acceptableTags v.
Proof.
  unfold json.UnmarshalMap. destruct (json.parse data) as [v|].
  - destruct v; cbn [snd]; try (split; [done|by intros (? & [= <-] & ?)]).
    + split; [intros _; by exists json.Null|done].
    + destruct (decodeMapMember_fold members (∅, None)) as [_ H].
      rewrite H. cbn [snd acceptableTags]. split.
      * intros [_ ?]. by eexists.
      * by intros (? & [= <-] & ?).
  - cbn [snd]. split; [done|by intros (? & ? & ?)].
Qed.

(** X17. The tag map of an object holds, for every key, the string of the
    last member with that key, and the empty string when that member is
    null. *)
Theorem tags_last_wins data members :
  json.parse data = Some (json.Object members) ->
  (json.UnmarshalMap data).1 = list_to_map (reverse (memberString <$> members)).
Proof.
  intros Hp. unfold json.UnmarshalMap. rewrite Hp.
  destruct (decodeMapMember_fold members (∅, None)) as [H _].
  rewrite H, insert_fold_last_wins. cbn [fst]. by rewrite (right_id_L ∅ (∪)).
Qed.

(** X18. An event detail unmarshals without error exactly when it is a JSON
    text for null or for an object in which every member that matches
    SourceIdentifier is a string or null; the other members may hold
    anything. *)
Theorem event_accepted_iff data :
  (UnmarshalEventDetail data).2 = None <->
  exists v, json.parse data = Some v /\ acceptableDetail "SourceIdentifier" v.
Proof.
  unfold UnmarshalEventDetail, json.UnmarshalStruct.
  destruct (json.parse data) as [v|].
  - destruct v; cbn [snd]; try (split; [done|by intros (? & [= <-] & ?)]).
    + split; [intros _; by exists json.Null|done].
    + destruct (decodeFieldMember_fold "EventDetail" "SourceIdentifier" members
                  (EmptyString, None)) as [_ H].
      destruct (foldl _ _ members) as [s err]. cbn [snd] in *.
      rewrite H. cbn [acceptableDetail]. split.
      * intros [_ ?]. by eexists.
      * by intros (? & [= <-] & ?).
  - cbn [snd]. split; [done|by intros (? & ? & ?)].
Qed.

(** X19. The identifier read from an event detail that is an object is the
    string of the last member whose key matches SourceIdentifier and whose
    value is a string; it is empty when there is no such member. *)
Theorem event_identifier_is_last_match data members :
  json.parse data = Some (json.Object members) ->
  SourceIdentifier (UnmarshalEventDetail data).1 =
  default EmptyString (last (omap (fieldString "SourceIdentifier") members)).
Proof.
  intros Hp. unfold UnmarshalEventDetail, json.UnmarshalStruct. rewrite Hp.
  destruct (decodeFieldMember_fold "EventDetail" "SourceIdentifier" members
              (EmptyString, None)) as [H _].
  destruct (foldl _ _ members) as [s err]. cbn [fst snd SourceIdentifier] in *.
  done.
Qed.

(** ** The further properties at concrete cases *)

(** "invalid event detail". *)
Lemma event_parse_error_witness :
  let r := HandleRequest map_to_list mock.handler mock.lc
             {| events.Detail := "invalid json" |} (initial tt mock.env) in
  r.1 = Done (Some SyntaxError) /\ calls r.2 = [] /\ world r.2 = tt.
Proof.
  apply (event_parse_error map_to_list mock.handler mock.lc
           {| events.Detail := "invalid json" |} (initial tt mock.env)
           (json.UnmarshalMap mock.tagsJSON).1
           {| SourceIdentifier := EmptyString |} SyntaxError);
    by vm_compute.
Defined.

(** An identifier with the marker in its middle. *)
Lemma describe_iff_marker_witness :
  let id := "blue-application-autoscaling-fry" in
  let r := HandleRequest map_to_list mock.handler mock.lc (mock.event id)
             (initial tt mock.env) in
  exists new,
    calls r.2 = [] ++ new /\
    ((exists pre post, id = pre +:+ "application-autoscaling-" +:+ post) ->
     exists output err rest,
       new = DescribeDBInstancesCall (describeInput id) output err :: rest) /\
    ((~ exists pre post, id = pre +:+ "application-autoscaling-" +:+ post) ->
     new = []).
Proof.
  apply (describe_iff_marker map_to_list mock.handler mock.lc
           (mock.event "blue-application-autoscaling-fry") (initial tt mock.env)
           (json.UnmarshalMap mock.tagsJSON).1
           {| SourceIdentifier := "blue-application-autoscaling-fry" |});
    by vm_compute.
Defined.

Lemma default_clients_behave_well :
  (forall input w,
     describeAnswerOk (DescribeDBInstances (h_rds mock.handler) input w).1 = true) /\
  (forall input w,
     identityAnswerOk (GetCallerIdentity (h_sts mock.handler) input w).1 = true).
Proof. split; intros; reflexivity. Defined.

Lemma well_behaved_clients_no_panic_witness :
  (HandleRequest map_to_list mock.handler mock.lc
     (mock.event "application-autoscaling-fry") (initial tt mock.env)).1 <> Panic.
Proof.
  apply (well_behaved_clients_no_panic map_to_list mock.handler mock.lc
           (mock.event "application-autoscaling-fry") (initial tt mock.env)
           (proj1 default_clients_behave_well)
           (proj2 default_clients_behave_well)).
Defined.

(** One instance answered, and the same instance followed by another. *)
Lemma resolver_first_descriptor_only_witness :
  (getClusterIdentifier (mock.resolverHandler "test-arn") "test-instance"
     (initial tt ∅)).1 =
  (getClusterIdentifier mock.twoInstancesHandler "test-instance" (initial tt ∅)).1.
Proof.
  apply (resolver_first_descriptor_only (mock.resolverHandler "test-arn")
           mock.twoInstancesHandler "test-instance" (initial tt ∅) (initial tt ∅)
           {| rds.DBInstances :=
                [Some {| rds.DBClusterIdentifier := Some "test-cluster";
                         rds.DBInstanceArn := Some "test-arn" |}] |}
           {| rds.DBInstances :=
                [Some {| rds.DBClusterIdentifier := Some "test-cluster";
                         rds.DBInstanceArn := Some "test-arn" |};
                 Some {| rds.DBClusterIdentifier := Some "other-cluster";
                         rds.DBInstanceArn := None |}] |});
    reflexivity.
Defined.

(** "with lambda context", on the run of "autoscaling instance with valid
    cluster". *)
Lemma logs_carry_context_witness :
  let st' := (HandleRequest map_to_list mock.handler mock.lc
                (mock.event "application-autoscaling-fry")
                (initial tt mock.env)).2 in
  logger st' =
  [("aws_request_id", "test-request-id"); ("function_name", EmptyString);
   ("function_version", EmptyString); ("version", "dev"); ("commit", "none");
   ("built_at", "unknown")] /\
  Forall (fun r => log_fields r = logger st') (logs st').
Proof.
  destruct (logs_carry_context map_to_list mock.handler mock.lc
              (mock.event "application-autoscaling-fry") (initial tt mock.env))
    as (Hlogger & _ & (newlogs & Hlogs & _ & Hall) & _).
  cbv zeta. split.
  - exact (eq_sym (f_equal (fun o => match o with Done l => l | Panic => [] end)
                     Hlogger)).
  - rewrite Hlogs. cbn [logs initial app].
    eapply Forall_impl; [exact Hall|]. by intros r [_ ?].
Defined.

(** "sts get caller identity error". *)
Lemma errors_are_logged_witness :
  let r := HandleRequest map_to_list mock.hypnotoadHandler mock.lc
             (mock.event "application-autoscaling-hypnotoad")
             (initial tt mock.env) in
  let e := errorString "ALL GLORY TO THE HYPNOTOAD" in
  exists record,
    last (logs r.2) = Some record /\
    (argError e ∈ log_args record \/
     (log_format record = "RDS_CLUSTER_IDENTIFIER environment variable is not set" /\
      e = errorString "RDS_CLUSTER_IDENTIFIER environment variable is required")).
Proof.
  apply (errors_are_logged map_to_list mock.hypnotoadHandler mock.lc
           (mock.event "application-autoscaling-hypnotoad")
           (initial tt mock.env) (errorString "ALL GLORY TO THE HYPNOTOAD")).
  by vm_compute.
Defined.

(** "autoscaling instance with valid cluster". *)
Lemma nil_result_means_skip_or_tagged_witness :
  let r := HandleRequest map_to_list mock.handler mock.lc
             (mock.event "application-autoscaling-fry") (initial tt mock.env) in
  exists new record,
    calls r.2 = [] ++ new /\
    last (logs r.2) = Some record /\
    ((new = [] /\
      log_format record = "DB instance %s is not an Aurora instance. Skipping.") \/
     (capability <$> new = [Membership] /\
      Forall (fun c => call_err c = None) new /\
      log_format record = "DB instance %s is not a member of cluster %s. Skipping.") \/
     (capability <$> new = [Membership; Identity; Tagging] /\
      Forall (fun c => call_err c = None) new /\
      log_format record = "Received event for DB instance: %s")).
Proof.
  apply (nil_result_means_skip_or_tagged map_to_list mock.handler mock.lc
           (mock.event "application-autoscaling-fry") (initial tt mock.env)).
  by vm_compute.
Defined.

(** An identity answer without an account. *)
Lemma unusable_identity_panics_witness :
  let r := HandleRequest map_to_list mock.anonymousHandler mock.lc
             (mock.event "application-autoscaling-fry") (initial tt mock.env) in
  r.1 = Panic /\
  exists out1,
    calls r.2 =
    [] ++
    [DescribeDBInstancesCall (describeInput "application-autoscaling-fry") out1 None;
     GetCallerIdentityCall sts.Build_GetCallerIdentityInput
       (Some {| sts.Account := None |}) None].
Proof.
  apply (unusable_identity_panics map_to_list mock.anonymousHandler mock.lc
           (mock.event "application-autoscaling-fry") (initial tt mock.env)
           (json.UnmarshalMap mock.tagsJSON).1
           {| SourceIdentifier := "application-autoscaling-fry" |}
           (Some {| sts.Account := None |}, None) tt);
    by vm_compute.
Defined.

(** The tags of the test's tag set. *)
Lemma tag_list_of_map_witness :
  let tags := (json.UnmarshalMap mock.tagsJSON).1 in
  NoDup (rds.Key <$> awsTags map_to_list tags) /\
  forall k v,
    {| rds.Key := Some k; rds.Value := Some v |} ∈ awsTags map_to_list tags <->
    tags !! k = Some v.
Proof.
  apply (tag_list_of_map map_to_list map_to_list_perm
           (json.UnmarshalMap mock.tagsJSON).1).
Defined.

(** A tag set with a key given twice and a null value. *)
Lemma tags_last_wins_witness :
  (json.UnmarshalMap (mock.js "{'Owner':'fry','Team':null,'Owner':'leela'}")).1 =
  list_to_map (reverse [("Owner", "fry"); ("Team", EmptyString); ("Owner", "leela")]).
Proof.
  apply (tags_last_wins (mock.js "{'Owner':'fry','Team':null,'Owner':'leela'}")
           [("Owner", json.Str "fry"); ("Team", json.Null);
            ("Owner", json.Str "leela")]).
  by vm_compute.
Defined.

(** The detail of an RDS event, with its other members. *)
Lemma event_identifier_is_last_match_witness :
  let members :=
    match json.parse mock.rdsEventDetail with
    | Some (json.Object members) => members
    | _ => []
    end in
  SourceIdentifier (UnmarshalEventDetail mock.rdsEventDetail).1 =
  default EmptyString (last (omap (fieldString "SourceIdentifier") members)).
Proof.
  apply (event_identifier_is_last_match mock.rdsEventDetail).
  by vm_compute.
Defined.

Example test_rds_event_detail :
  UnmarshalEventDetail mock.rdsEventDetail =
  ({| SourceIdentifier := "application-autoscaling-fry" |}, None).
Proof. vm_compute. reflexivity. Qed.

Example test_duplicate_tags :
  map_to_list
    (json.UnmarshalMap (mock.js "{'Owner':'fry','Team':null,'Owner':'leela'}")).1 =
  [("Owner", "leela"); ("Team", EmptyString)].
Proof. vm_compute. reflexivity. Qed.
